(** * wav-dca-tracker: the FIFO cost-basis engine of [utils/finance]

    A shallow embedding of [computePnL], [computeTotals] and
    [computeMonthlyHistory], followed by the properties the specification
    states about them.

    Modelling choices.
    - A JavaScript [number] is an exact rational ([Qc], canonical fractions,
      Leibniz equality); [1e-8] is the fraction 1/100000000.  The code runs
      on binary64 doubles, whose results are rounded.  The properties that
      name the code are therefore those that rounding leaves true: what
      the code does in which order, signs, comparisons and bounds that
      rounding keeps.  Where a property needs exact sums it says so, and
      [computeTotals] is given a second time over any arithmetic
      ([Any.computeTotalsWith]), with doubles ([PrimFloat]) as one instance.
      [NaN] and the infinities are outside the model.
    - A JavaScript object used as a dictionary is an association list in
      insertion order with unique keys ([Obj.t]); [Obj.keys] is the list of
      its keys in that order, and [Object_keys] the order [Object.keys]
      gives, integer-like keys first.  Asset symbols are upper-case
      tickers, so they are not names inherited from [Object.prototype].
    - An array is a list; [push] appends, [shift] drops the head.
    - The [while] loop of a SELL runs on fuel; [computePnL] gives it the
      length of the lot queue and returns [None] if that were not enough. *)

From Stdlib Require Import QArith Qcanon Lqa Lia ZArith Bool List.
From Stdlib Require Import String Ascii Permutation Sorted OrderedTypeEx.
From Stdlib Require Import PrimFloat.
Import ListNotations.

Open Scope Qc_scope.

(** ** Numbers *)

Abbreviation number := Qc (only parsing).

Definition Qcltb (x y : number) : bool :=
  match x ?= y with Lt => true | _ => false end.

Definition Qcleb (x y : number) : bool :=
  match x ?= y with Gt => false | _ => true end.

(** [Math.min] on two numbers. *)
Definition Math_min (x y : number) : number :=
  if Qcleb x y then x else y.

Definition Qcmax (x y : number) : number :=
  if Qcleb x y then y else x.

(** The literal [1e-8]. *)
Definition epsilon : number := Q2Qc (1 # 100000000).

Definition hundred : number := Q2Qc 100.

(** [inject_nat n] is the number [n]. *)
Definition inject_nat (n : nat) : number := Q2Qc (inject_Z (Z.of_nat n)).

(** ** Objects used as dictionaries *)

Module Obj.

Definition t (V : Type) := list (string * V).

Definition empty {V : Type} : t V := [].

(** [o[k]]: the value stored under [k], [None] for [undefined]. *)
Fixpoint get {V : Type} (k : string) (o : t V) : option V :=
  match o with
  | [] => None
  | (k', v) :: o' => if String.eqb k k' then Some v else get k o'
  end.

(** [o[k] = v]: an existing key keeps its place, a new key goes last. *)
Fixpoint set {V : Type} (k : string) (v : V) (o : t V) : t V :=
  match o with
  | [] => [(k, v)]
  | (k', v') :: o' =>
      if String.eqb k k' then (k', v) :: o' else (k', v') :: set k v o'
  end.

(** [Object.keys(o)]. *)
Definition keys {V : Type} (o : t V) : list string := map fst o.

Definition values {V : Type} (o : t V) : list V := map snd o.

(** An association list stands for an object when its keys are distinct. *)
Definition wf {V : Type} (o : t V) : Prop := NoDup (keys o).

End Obj.

(** ** Dates *)

Module JSDate.

Definition digit (c : ascii) : option Z :=
  let n := Z.of_nat (nat_of_ascii c) in
  if ((48 <=? n) && (n <=? 57))%Z then Some (n - 48)%Z else None.

Fixpoint digits (acc : Z) (cs : list ascii) : option Z :=
  match cs with
  | [] => Some acc
  | c :: cs' =>
      match digit c with
      | Some d => digits (10 * acc + d)%Z cs'
      | None => None
      end
  end.

(** Days between 1970-01-01 and the civil date [y]-[m]-[d]. *)
Definition days_from_civil (y m d : Z) : Z :=
  let y' := (if m <=? 2 then y - 1 else y)%Z in
  let era := (y' / 400)%Z in
  let yoe := (y' - era * 400)%Z in
  let mp := (if m <=? 2 then m + 9 else m - 3)%Z in
  let doy := ((153 * mp + 2) / 5 + d - 1)%Z in
  let doe := (yoe * 365 + yoe / 4 - yoe / 100 + doy)%Z in
  (era * 146097 + doe - 719468)%Z.

(** [new Date(s).getTime()] for the date-only ISO form [YYYY-MM-DD] the
    transactions carry: milliseconds since the epoch at UTC midnight.
    [None] is the time value [NaN] of an invalid date. *)
Definition parse (s : string) : option Z :=
  match list_ascii_of_string s with
  | [y1; y2; y3; y4; s1; m1; m2; s2; d1; d2] =>
      if (Ascii.eqb s1 "-" && Ascii.eqb s2 "-")%bool then
        match digits 0 [y1; y2; y3; y4], digits 0 [m1; m2], digits 0 [d1; d2] with
        | Some y, Some m, Some d =>
            if ((1 <=? m) && (m <=? 12) && (1 <=? d) && (d <=? 31))%Z
            then Some (days_from_civil y m d * 86400000)%Z
            else None
        | _, _, _ => None
        end
      else None
  | _ => None
  end.

End JSDate.

(** ** Array.prototype.sort *)

Section ArraySort.

Context {A : Type}.

(** [comparefn]: a negative, zero or positive number; a [NaN] result
    counts as [+0] and is passed here as [0]. *)
Variable comparefn : A -> A -> Z.

Fixpoint sort_insert (x : A) (l : list A) : list A :=
  match l with
  | [] => [x]
  | y :: l' =>
      if (comparefn x y <=? 0)%Z then x :: y :: l'
      else y :: sort_insert x l'
  end.

(** The sort is stable: of two elements that compare equal the one that
    comes first in the input comes first in the result.  Every stable
    sort returns this list when [comparefn] is a consistent comparator. *)
Fixpoint Array_sort (l : list A) : list A :=
  match l with
  | [] => []
  | x :: l' => sort_insert x (Array_sort l')
  end.

End ArraySort.

(** ** Data model *)

(** A transaction.  The [platform] field of the stored records is not read
    by the engine and is left out. *)
Module Tx.
Record t := mk {
  date : string;      (* 'YYYY-MM-DD' *)
  asset : string;
  type : string;      (* 'BUY' | 'SELL' *)
  price : number;
  quantity : number
}.
End Tx.

(** A purchase lot [{ quantity, price }]. *)
Module Lot.
Record t := mk {
  quantity : number;
  price : number
}.
End Lot.

(** The per-asset record [computePnL] returns; [pnlPercent] is [None] for
    [null]. *)
Module Summary.
Record t := mk {
  quantity : number;
  invested : number;
  currentPrice : number;
  value : number;
  realised : number;
  unrealised : number;
  pnl : number;
  costAvg : number;
  pnlPercent : option number
}.
End Summary.

Module Totals.
Record t := mk {
  invested : number;
  value : number;
  realised : number;
  unrealised : number;
  pnl : number
}.
End Totals.

(** A row of the monthly history; [return_] is the field [return]. *)
Module Entry.
Record t := mk {
  month : string;
  invested : number;
  value : number;
  realised : number;
  unrealised : number;
  pnl : number;
  return_ : number
}.
End Entry.

(** ** computePnL *)

(** The variables of the SELL loop: [qtyToSell], the array [lots] (which is
    [lotsByAsset[asset]] itself) and [realisedByAsset[asset]]. *)
Record SellState := mkSell {
  qtyToSell : number;
  lots : list Lot.t;
  realisedAcc : number
}.

(** One pass through the body of the [while] loop, selling at [price]. *)
Definition sell_iter (price : number) (st : SellState) : SellState :=
  match lots st with
  | [] => st
  | lot :: rest =>
      let sellQty := Math_min (Lot.quantity lot) (qtyToSell st) in
      let realised := realisedAcc st + sellQty * (price - Lot.price lot) in
      let lot' := Lot.mk (Lot.quantity lot - sellQty) (Lot.price lot) in
      let qty := qtyToSell st - sellQty in
      if Qcleb (Lot.quantity lot') epsilon
      then mkSell qty rest realised
      else mkSell qty (lot' :: rest) realised
  end.

(** [while (qtyToSell > 0 && lots.length > 0) { ... }] *)
Fixpoint sell_while (fuel : nat) (price : number) (st : SellState)
  : option SellState :=
  if (Qcltb 0 (qtyToSell st) && (0 <? List.length (lots st))%nat)%bool then
    match fuel with
    | O => None
    | S fuel' => sell_while fuel' price (sell_iter price st)
    end
  else Some st.

Record Ledger := mkLedger {
  lotsByAsset : Obj.t (list Lot.t);
  realisedByAsset : Obj.t number
}.

Definition empty_ledger : Ledger := mkLedger Obj.empty Obj.empty.

(** [if (!lotsByAsset[asset]) lotsByAsset[asset] = [];] (an array, even an
    empty one, is truthy). *)
Definition init_lots (asset : string) (o : Obj.t (list Lot.t))
  : Obj.t (list Lot.t) :=
  match Obj.get asset o with
  | Some _ => o
  | None => Obj.set asset [] o
  end.

(** [if (!realisedByAsset[asset]) realisedByAsset[asset] = 0;] (both
    [undefined] and [0] are falsy). *)
Definition init_realised (asset : string) (o : Obj.t number) : Obj.t number :=
  match Obj.get asset o with
  | Some r => if Qc_eq_bool r 0 then Obj.set asset 0 o else o
  | None => Obj.set asset 0 o
  end.

Definition get_lots (asset : string) (o : Obj.t (list Lot.t)) : list Lot.t :=
  match Obj.get asset o with Some l => l | None => [] end.

(** [o[asset] ?? 0] *)
Definition get_or_zero (asset : string) (o : Obj.t number) : number :=
  match Obj.get asset o with Some r => r | None => 0 end.

(** The body of [for (const tx of sorted)]. *)
Definition replay_tx (L : Ledger) (tx : Tx.t) : option Ledger :=
  let asset := Tx.asset tx in
  let lotsBy := init_lots asset (lotsByAsset L) in
  let realisedBy := init_realised asset (realisedByAsset L) in
  if String.eqb (Tx.type tx) "BUY" then
    Some (mkLedger
            (Obj.set asset
               (get_lots asset lotsBy ++ [Lot.mk (Tx.quantity tx) (Tx.price tx)])
               lotsBy)
            realisedBy)
  else if String.eqb (Tx.type tx) "SELL" then
    let queue := get_lots asset lotsBy in
    match sell_while (List.length queue) (Tx.price tx)
            (mkSell (Tx.quantity tx) queue (get_or_zero asset realisedBy)) with
    | Some st =>
        Some (mkLedger (Obj.set asset (lots st) lotsBy)
                       (Obj.set asset (realisedAcc st) realisedBy))
    | None => None
    end
  else Some (mkLedger lotsBy realisedBy).

Fixpoint replay (L : Ledger) (txs : list Tx.t) : option Ledger :=
  match txs with
  | [] => Some L
  | tx :: txs' =>
      match replay_tx L tx with
      | Some L' => replay L' txs'
      | None => None
      end
  end.

(** [new Date(a.date) - new Date(b.date)]; [NaN] when a date is invalid,
    which the sort takes for [0]. *)
Definition date_compare (a b : Tx.t) : Z :=
  match JSDate.parse (Tx.date a), JSDate.parse (Tx.date b) with
  | Some x, Some y => (x - y)%Z
  | _, _ => 0%Z
  end.

(** [[...transactions].sort((a, b) => new Date(a.date) - new Date(b.date))] *)
Definition sorted (transactions : list Tx.t) : list Tx.t :=
  Array_sort date_compare transactions.

Definition sum_by {A : Type} (f : A -> number) (l : list A) : number :=
  fold_left (fun sum x => sum + f x) l 0.

(** The record built for one asset from its remaining lots. *)
Definition summarise (prices : Obj.t number) (L : Ledger) (asset : string)
  : Summary.t :=
  let lots := get_lots asset (lotsByAsset L) in
  let totalQty := sum_by Lot.quantity lots in
  let invested := sum_by (fun lot => Lot.quantity lot * Lot.price lot) lots in
  let currentPrice := get_or_zero asset prices in
  let value := currentPrice * totalQty in
  let realised := get_or_zero asset (realisedByAsset L) in
  let unrealised := value - invested in
  let pnl := realised + unrealised in
  let costAvg := if Qcltb 0 totalQty then invested / totalQty else 0 in
  let pnlPercent :=
    if Qcltb 0 invested then Some ((pnl / invested) * hundred) else None in
  Summary.mk totalQty invested currentPrice value realised unrealised pnl
             costAvg pnlPercent.

(** [for (const asset of Object.keys(lotsByAsset)) { result[asset] = ... }] *)
Definition build_summary (prices : Obj.t number) (L : Ledger)
  : Obj.t Summary.t :=
  fold_left (fun result asset => Obj.set asset (summarise prices L asset) result)
            (Obj.keys (lotsByAsset L)) Obj.empty.

Definition computePnL (transactions : list Tx.t) (prices : Obj.t number)
  : option (Obj.t Summary.t) :=
  match replay empty_ledger (sorted transactions) with
  | Some L => Some (build_summary prices L)
  | None => None
  end.

(** ** computeTotals *)

Definition zero_totals : Totals.t := Totals.mk 0 0 0 0 0.

Definition add_summary (acc : Totals.t) (s : Summary.t) : Totals.t :=
  Totals.mk (Totals.invested acc + Summary.invested s)
            (Totals.value acc + Summary.value s)
            (Totals.realised acc + Summary.realised s)
            (Totals.unrealised acc + Summary.unrealised s)
            (Totals.pnl acc + Summary.pnl s).

(** [for (const asset of Object.keys(summary)) { const s = summary[asset]; ... }] *)
Definition computeTotals (summary : Obj.t Summary.t) : Totals.t :=
  fold_left
    (fun acc asset =>
       match Obj.get asset summary with
       | Some s => add_summary acc s
       | None => acc
       end)
    (Obj.keys summary) zero_totals.

(** ** computeMonthlyHistory *)

(** [tx.date.slice(0, 7)] *)
Definition monthKey (tx : Tx.t) : string := substring 0 7 (Tx.date tx).

(** [new Set(xs)] as the array [Array.from] makes of it: the distinct
    elements in the order of their first occurrence. *)
Definition Set_add (s : list string) (x : string) : list string :=
  if existsb (String.eqb x) s then s else s ++ [x].

Definition Set_from (xs : list string) : list string :=
  fold_left Set_add xs [].

(** The comparator of [sort()] without argument: code unit order. *)
Definition string_compare (x y : string) : Z :=
  match String.compare x y with
  | Lt => (-1)%Z
  | Eq => 0%Z
  | Gt => 1%Z
  end.

Definition months_of (transactions : list Tx.t) : list string :=
  Array_sort string_compare (Set_from (map monthKey transactions)).

(** The body of [for (const month of months)], with the rows that follow. *)
Fixpoint history_from (transactions : list Tx.t) (prices : Obj.t number)
  (months : list string) (prevPortfolioValue prevInvested : number)
  : option (list Entry.t) :=
  match months with
  | [] => Some []
  | month :: months' =>
      let uptoMonth :=
        filter (fun tx => String.leb (monthKey tx) month) transactions in
      match computePnL uptoMonth prices with
      | None => None
      | Some summary =>
          let totals := computeTotals summary in
          let portfolioValue := Totals.value totals + Totals.realised totals in
          let newContrib := Totals.invested totals - prevInvested in
          let periodReturn :=
            if Qcltb 0 prevPortfolioValue
            then (portfolioValue - prevPortfolioValue - newContrib)
                 / prevPortfolioValue
            else 0 in
          match history_from transactions prices months'
                  portfolioValue (Totals.invested totals) with
          | None => None
          | Some history =>
              Some (Entry.mk month (Totals.invested totals)
                      (Totals.value totals) (Totals.realised totals)
                      (Totals.unrealised totals) (Totals.pnl totals)
                      (periodReturn * hundred) :: history)
          end
      end
  end.

Definition computeMonthlyHistory (transactions : list Tx.t)
  (prices : Obj.t number) : option (list Entry.t) :=
  history_from transactions prices (months_of transactions) 0 0.

(** ** The ledger of one asset

    What the replay does to a single asset, written without the shared
    objects and without fuel: the queue of open lots and the realised
    accumulator of that asset alone. *)

(** The SELL loop by recursion on the queue. *)
Fixpoint sell_fifo (price qty : number) (queue : list Lot.t)
  (realised : number) : SellState :=
  match queue with
  | [] => mkSell qty [] realised
  | lot :: rest =>
      if Qcltb 0 qty then
        let sellQty := Math_min (Lot.quantity lot) qty in
        let realised' := realised + sellQty * (price - Lot.price lot) in
        let left := Lot.quantity lot - sellQty in
        if Qcleb left epsilon
        then sell_fifo price (qty - sellQty) rest realised'
        else mkSell (qty - sellQty) (Lot.mk left (Lot.price lot) :: rest)
                    realised'
      else mkSell qty queue realised
  end.

Definition is_buy (tx : Tx.t) : bool := String.eqb (Tx.type tx) "BUY".
Definition is_sell (tx : Tx.t) : bool := String.eqb (Tx.type tx) "SELL".
Definition of_asset (a : string) (tx : Tx.t) : bool :=
  String.eqb (Tx.asset tx) a.

Definition asset_step (a : string) (st : list Lot.t * number) (tx : Tx.t)
  : list Lot.t * number :=
  if of_asset a tx then
    if is_buy tx then
      (fst st ++ [Lot.mk (Tx.quantity tx) (Tx.price tx)], snd st)
    else if is_sell tx then
      let r := sell_fifo (Tx.price tx) (Tx.quantity tx) (fst st) (snd st) in
      (lots r, realisedAcc r)
    else st
  else st.

Definition asset_replay (a : string) (txs : list Tx.t)
  : list Lot.t * number :=
  fold_left (asset_step a) txs ([], 0).

Definition asset_view (a : string) (L : Ledger) : list Lot.t * number :=
  (get_lots a (lotsByAsset L), get_or_zero a (realisedByAsset L)).

(** ** Realised PnL as a sum over consumed lot portions *)

(** A part of a lot consumed by a sale. *)
Record Portion := mkPortion {
  consumed : number;
  acquisition_price : number;
  sell_price : number
}.

Definition portion_pnl (p : Portion) : number :=
  consumed p * (sell_price p - acquisition_price p).

(** The portions a sale of [remaining] units at [sellPrice] takes from the
    queue, oldest lot first, and the queue it leaves. *)
Fixpoint fifo_portions (sellPrice remaining : number) (queue : list Lot.t)
  : list Portion * list Lot.t :=
  match queue with
  | [] => ([], [])
  | head :: tail =>
      if Qcltb 0 remaining then
        let c := Math_min (Lot.quantity head) remaining in
        let p := mkPortion c (Lot.price head) sellPrice in
        let left := Lot.quantity head - c in
        if Qcleb left epsilon then
          let (ps, queue') := fifo_portions sellPrice (remaining - c) tail in
          (p :: ps, queue')
        else ([p], Lot.mk left (Lot.price head) :: tail)
      else ([], queue)
  end.

(** All portions consumed by the SELL events of asset [a] in [txs], which
    are processed in the order given, starting from [queue]. *)
Fixpoint asset_portions (a : string) (txs : list Tx.t) (queue : list Lot.t)
  : list Portion :=
  match txs with
  | [] => []
  | tx :: txs' =>
      if of_asset a tx then
        if is_buy tx then
          asset_portions a txs'
            (queue ++ [Lot.mk (Tx.quantity tx) (Tx.price tx)])
        else if is_sell tx then
          let (ps, queue') :=
            fifo_portions (Tx.price tx) (Tx.quantity tx) queue in
          ps ++ asset_portions a txs' queue'
        else asset_portions a txs' queue
      else asset_portions a txs' queue
  end.

(** ** Quantities bought and sold *)

(** A SELL of asset [a]. *)
Definition sale_of (a : string) (tx : Tx.t) : bool :=
  (of_asset a tx && is_sell tx)%bool.

Definition bought (a : string) (txs : list Tx.t) : number :=
  sum_by Tx.quantity (filter (fun tx => of_asset a tx && is_buy tx) txs).

Definition sold (a : string) (txs : list Tx.t) : number :=
  sum_by Tx.quantity (filter (sale_of a) txs).

Definition sell_count (a : string) (txs : list Tx.t) : nat :=
  List.length (filter (sale_of a) txs).

(** The balance of asset [a] when each BUY adds its quantity and each SELL
    takes its quantity off, stopping at zero. *)
Definition balance_step (a : string) (bal : number) (tx : Tx.t) : number :=
  if of_asset a tx then
    if is_buy tx then bal + Tx.quantity tx
    else if is_sell tx then Qcmax 0 (bal - Tx.quantity tx)
    else bal
  else bal.

Definition running_balance (a : string) (txs : list Tx.t) : number :=
  fold_left (balance_step a) txs 0.

(** No SELL of asset [a] asks for more than the balance holds. *)
Fixpoint covered (a : string) (bal : number) (txs : list Tx.t) : Prop :=
  match txs with
  | [] => True
  | tx :: txs' =>
      (sale_of a tx = true -> Tx.quantity tx <= bal)
      /\ covered a (balance_step a bal tx) txs'
  end.

(** ** Inputs *)

(** Prices and quantities are amounts: not negative. *)
Definition amounts (tx : Tx.t) : Prop :=
  0 <= Tx.price tx /\ 0 <= Tx.quantity tx.

Definition lot_amounts (lot : Lot.t) : Prop :=
  0 <= Lot.quantity lot /\ 0 <= Lot.price lot.

Definition lot_quantity_ok (lot : Lot.t) : Prop := 0 <= Lot.quantity lot.

Definition valid_date (tx : Tx.t) : Prop :=
  JSDate.parse (Tx.date tx) <> None.

(** The time value of a transaction's date ([0] stands in for [NaN]). *)
Definition time_of (tx : Tx.t) : Z :=
  match JSDate.parse (Tx.date tx) with Some t => t | None => 0%Z end.

(** The elements of a list whose key is [t] are [filter (with_key key t)]. *)
Definition with_key {A : Type} (key : A -> Z) (t : Z) (x : A) : bool :=
  (key x =? t)%Z.

Definition at_time (t : Z) (tx : Tx.t) : bool := with_key time_of t tx.

(** The return the estimator reports for a month whose totals are
    [value], [realised] and [invested], after a month that closed with
    [prevValue] and [prevInvested]. *)
Definition period_return (prevValue prevInvested : number) (e : Entry.t)
  : number :=
  if Qcltb 0 prevValue
  then ((Entry.value e + Entry.realised e) - prevValue
        - (Entry.invested e - prevInvested)) / prevValue * hundred
  else 0.

Fixpoint returns_chain (prevValue prevInvested : number)
  (history : list Entry.t) : Prop :=
  match history with
  | [] => True
  | e :: history' =>
      Entry.return_ e = period_return prevValue prevInvested e
      /\ returns_chain (Entry.value e + Entry.realised e) (Entry.invested e)
                       history'
  end.

(** The row of month [m]: the totals of the transactions up to [m]. *)
Definition row_of (transactions : list Tx.t) (prices : Obj.t number)
  (e : Entry.t) : Prop :=
  exists summary,
    computePnL
      (filter (fun tx => String.leb (monthKey tx) (Entry.month e)) transactions)
      prices = Some summary
    /\ Entry.invested e = Totals.invested (computeTotals summary)
    /\ Entry.value e = Totals.value (computeTotals summary)
    /\ Entry.realised e = Totals.realised (computeTotals summary)
    /\ Entry.unrealised e = Totals.unrealised (computeTotals summary)
    /\ Entry.pnl e = Totals.pnl (computeTotals summary).

Definition string_lt (x y : string) : Prop := String.compare x y = Lt.

(** ** Costs of the purchases *)

(** A BUY of asset [a]. *)
Definition buy_of (a : string) (tx : Tx.t) : bool :=
  (of_asset a tx && is_buy tx)%bool.

Definition lot_of (tx : Tx.t) : Lot.t := Lot.mk (Tx.quantity tx) (Tx.price tx).

Definition lot_cost (lot : Lot.t) : number := Lot.quantity lot * Lot.price lot.

(** What the BUYs of asset [a] paid in total. *)
Definition cost_of_buys (a : string) (txs : list Tx.t) : number :=
  sum_by (fun tx => Tx.quantity tx * Tx.price tx) (filter (buy_of a) txs).

(** ** fetchPrices ([utils/prices])

    The network is a function [fetch] from the URL to the parsed JSON
    body, [None] when [fetch] or [res.json()] throws; the function returns
    the URLs it requested together with the price map.  The body has the
    shape [{ id: { eur: number } }].  The message a failed request writes
    to the console is left out. *)

Definition priceIds : Obj.t string :=
  [("BTC", "bitcoin"); ("ETH", "ethereum"); ("SOL", "solana");
   ("SUI", "sui"); ("HYPE", "hyperliquid")]%string.

(** [Boolean(x)] for a string or [undefined]. *)
Definition Boolean_string (x : option string) : bool :=
  match x with
  | Some s => negb (String.eqb s "")
  | None => false
  end.

(** [ids.join(',')]; an [undefined] element prints as the empty string. *)
Fixpoint join (sep : string) (ids : list (option string)) : string :=
  match ids with
  | [] => ""
  | [x] => match x with Some s => s | None => "" end
  | x :: ids' =>
      (match x with Some s => s | None => "" end) ++ sep ++ join sep ids'
  end%string.

Definition price_url (ids : list (option string)) : string :=
  ("https://api.coingecko.com/api/v3/simple/price?ids=" ++ join "," ids
   ++ "&vs_currencies=eur")%string.

(** [assets.map((asset) => priceIds[asset]).filter(Boolean)] *)
Definition known_ids (assets : list string) : list (option string) :=
  filter Boolean_string (map (fun asset => Obj.get asset priceIds) assets).

(** The body of [assets.forEach] after a successful request. *)
Definition take_quote (data : Obj.t (Obj.t number)) (prices : Obj.t number)
  (asset : string) : Obj.t number :=
  let id := Obj.get asset priceIds in
  if Boolean_string id then
    match id with
    | Some i =>
        match Obj.get i data with
        | Some quote =>
            match Obj.get "eur" quote with
            | Some eur => Obj.set asset eur prices
            | None => prices
            end
        | None => prices
        end
    | None => prices
    end
  else prices.

(** The body of [for (const asset of Object.keys(manual))]. *)
Definition take_manual (manual : Obj.t number) (prices : Obj.t number)
  (asset : string) : Obj.t number :=
  match Obj.get asset manual with
  | Some v => Obj.set asset v prices
  | None => prices
  end.

Definition fetchPrices (fetch : string -> option (Obj.t (Obj.t number)))
  (assets : list string) (manual : Obj.t number)
  : list string * Obj.t number :=
  let ids := known_ids assets in
  let requested :=
    if (0 <? List.length ids)%nat then
      let url := price_url ids in
      match fetch url with
      | Some data => ([url], fold_left (take_quote data) assets Obj.empty)
      | None => ([url], Obj.empty)
      end
    else ([], Obj.empty) in
  (fst requested,
   fold_left (take_manual manual) (Obj.keys manual) (snd requested)).

(** The price [assets.forEach] reads for [asset] out of the body. *)
Definition quoted (data : Obj.t (Obj.t number)) (asset : string)
  : option number :=
  match Obj.get asset priceIds with
  | Some i =>
      if String.eqb i "" then None
      else match Obj.get i data with
           | Some quote => Obj.get "eur" quote
           | None => None
           end
  | None => None
  end.

(** ** The page ([pages/index]) *)

(** [setTransactions((prev) => [...prev, tx])] *)
Definition handleAddTransaction (prev : list Tx.t) (tx : Tx.t) : list Tx.t :=
  prev ++ [tx].

(** [xs.filter((x, i) => f(x, i))], counting from [i]. *)
Fixpoint filter_indexed {A : Type} (f : A -> nat -> bool) (i : nat)
  (xs : list A) : list A :=
  match xs with
  | [] => []
  | x :: xs' =>
      if f x i then x :: filter_indexed f (S i) xs'
      else filter_indexed f (S i) xs'
  end.

(** [setTransactions((prev) => prev.filter((_, i) => i !== index))] *)
Definition handleDeleteTransaction (prev : list Tx.t) (index : nat)
  : list Tx.t :=
  filter_indexed (fun _ i => negb (i =? index)%nat) 0 prev.

(** [Array.from(new Set(transactions.map((tx) => tx.asset)))], the assets
    whose prices are fetched. *)
Definition assets_of (transactions : list Tx.t) : list string :=
  Set_from (map Tx.asset transactions).

(** [prices[asset] ?? manualPrices[asset]]; [None] is [undefined]. *)
Definition current_price (prices manualPrices : Obj.t number) (asset : string)
  : option number :=
  match Obj.get asset prices with
  | Some p => Some p
  | None => Obj.get asset manualPrices
  end.

(** The body of the loop of [renderExitSuggestions].  A suggestion is kept
    as the asset and the threshold its message names. *)
Definition suggest (summary : Obj.t Summary.t) (prices manualPrices : Obj.t number)
  (suggestions : list (string * number)) (asset : string)
  : list (string * number) :=
  match Obj.get asset summary with
  | None => suggestions
  | Some s =>
      if Qc_eq_bool (Summary.quantity s) 0 then suggestions
      else
        let threshold := Summary.costAvg s * Q2Qc 2 in
        match current_price prices manualPrices asset with
        | Some current =>
            if (Qcleb threshold current && Qcltb 0 (Summary.quantity s))%bool
            then suggestions ++ [(asset, threshold)]
            else suggestions
        | None => suggestions
        end
  end.

Definition exit_suggestions (summary : Obj.t Summary.t)
  (prices manualPrices : Obj.t number) : list (string * number) :=
  fold_left (suggest summary prices manualPrices) ["RTX"; "LBRETT"]%string [].

(** ** The summary table ([components/SummaryTable]) *)

(** [Object.keys(summary).sort()], one table row each. *)
Definition assetKeys (summary : Obj.t Summary.t) : list string :=
  Array_sort string_compare (Obj.keys summary).

(** ** computeTotals over any arithmetic

    [computeTotals] uses its numbers through [0] and [+] alone.  Here it is
    once more with the numbers, their zero and their addition left open, so
    that it can be run on binary64 doubles ([PrimFloat]) as well as on exact
    rationals. *)

Module Any.
Section Arithmetic.

Variable N : Type.
Variable zero : N.
Variable add : N -> N -> N.

Record Summary := mkSummary {
  quantity : N;
  invested : N;
  currentPrice : N;
  value : N;
  realised : N;
  unrealised : N;
  pnl : N;
  costAvg : N;
  pnlPercent : option N
}.

Record Totals := mkTotals {
  total_invested : N;
  total_value : N;
  total_realised : N;
  total_unrealised : N;
  total_pnl : N
}.

Definition zeros : Totals := mkTotals zero zero zero zero zero.

Definition add_entry (acc : Totals) (s : Summary) : Totals :=
  mkTotals (add (total_invested acc) (invested s))
           (add (total_value acc) (value s))
           (add (total_realised acc) (realised s))
           (add (total_unrealised acc) (unrealised s))
           (add (total_pnl acc) (pnl s)).

(** [for (const asset of Object.keys(summary)) { const s = summary[asset]; ... }] *)
Definition computeTotalsWith (summary : Obj.t Summary) : Totals :=
  fold_left
    (fun acc asset =>
       match Obj.get asset summary with
       | Some s => add_entry acc s
       | None => acc
       end)
    (Obj.keys summary) zeros.

End Arithmetic.
End Any.

Arguments Any.mkSummary {N}.
Arguments Any.mkTotals {N}.
Arguments Any.total_invested {N}.
Arguments Any.total_value {N}.
Arguments Any.total_realised {N}.
Arguments Any.total_unrealised {N}.
Arguments Any.total_pnl {N}.
Arguments Any.zeros {N}.
Arguments Any.add_entry {N}.
Arguments Any.computeTotalsWith {N}.



(** The summaries and totals of the exact model, read as records over any
    arithmetic. *)
Definition exact_summary (s : Summary.t) : Any.Summary Qc :=
  Any.mkSummary (Summary.quantity s) (Summary.invested s)
                (Summary.currentPrice s) (Summary.value s)
                (Summary.realised s) (Summary.unrealised s) (Summary.pnl s)
                (Summary.costAvg s) (Summary.pnlPercent s).

Definition exact_totals (t : Totals.t) : Any.Totals Qc :=
  Any.mkTotals (Totals.invested t) (Totals.value t) (Totals.realised t)
               (Totals.unrealised t) (Totals.pnl t).

Definition exact_entries (summary : Obj.t Summary.t)
  : Obj.t (Any.Summary Qc) :=
  map (fun entry => (fst entry, exact_summary (snd entry))) summary.

(** ** Integer-like keys

    [Object.keys] lists the keys that are canonical numerals ("0", "7",
    "42") first, in ascending numeric order, and the other keys after
    them in insertion order.  [Obj.keys] is the insertion order; where the
    order of the keys matters the numerals are kept out. *)

Definition is_digit (c : ascii) : bool :=
  match JSDate.digit c with Some _ => true | None => false end.

(** The number a numeral stands for. *)
Definition numeral_value (s : string) : Z :=
  match JSDate.digits 0 (list_ascii_of_string s) with
  | Some n => n
  | None => 0%Z
  end.

(** A key that is an array index: a numeral without leading zero, at most
    2^32 - 2. *)
Definition integer_like (s : string) : bool :=
  (match list_ascii_of_string s with
   | [] => false
   | [c] => is_digit c
   | c :: cs => is_digit c && negb (Ascii.eqb c "0") && forallb is_digit cs
   end
   && (numeral_value s <=? 4294967294)%Z)%bool.

Definition index_compare (x y : string) : Z :=
  (numeral_value x - numeral_value y)%Z.

(** [Object.keys(o)] in full: the integer-like keys in ascending numeric
    order, then the other keys in insertion order. *)
Definition Object_keys {V : Type} (o : Obj.t V) : list string :=
  Array_sort index_compare (filter integer_like (Obj.keys o))
  ++ filter (fun k => negb (integer_like k)) (Obj.keys o).

(** ** Reading results off

    Equality tests on records of numbers, for the worked examples. *)

Definition same_option (x y : option number) : bool :=
  match x, y with
  | Some a, Some b => Qc_eq_bool a b
  | None, None => true
  | _, _ => false
  end.

Definition same_summary (s s' : Summary.t) : bool :=
  (Qc_eq_bool (Summary.quantity s) (Summary.quantity s')
   && Qc_eq_bool (Summary.invested s) (Summary.invested s')
   && Qc_eq_bool (Summary.currentPrice s) (Summary.currentPrice s')
   && Qc_eq_bool (Summary.value s) (Summary.value s')
   && Qc_eq_bool (Summary.realised s) (Summary.realised s')
   && Qc_eq_bool (Summary.unrealised s) (Summary.unrealised s')
   && Qc_eq_bool (Summary.pnl s) (Summary.pnl s')
   && Qc_eq_bool (Summary.costAvg s) (Summary.costAvg s')
   && same_option (Summary.pnlPercent s) (Summary.pnlPercent s'))%bool.

(** [summary[asset]] is the record [expected]. *)
Definition entry_is (asset : string) (expected : Summary.t)
  (summary : option (Obj.t Summary.t)) : bool :=
  match summary with
  | Some o =>
      match Obj.get asset o with
      | Some s => same_summary s expected
      | None => false
      end
  | None => false
  end.

(** * Properties *)

(** ** The worked examples of the specification *)

Example buy_then_full_sell :
  entry_is "BTC"
    (Summary.mk 0 0 (Q2Qc 150) 0 (Q2Qc 50) 0 (Q2Qc 50) 0 None)
    (computePnL [Tx.mk "2024-01-01" "BTC" "BUY" (Q2Qc 100) (Q2Qc 1);
                 Tx.mk "2024-02-01" "BTC" "SELL" (Q2Qc 150) (Q2Qc 1)]
                [("BTC"%string, Q2Qc 150)])
  = true.
Proof. vm_compute. reflexivity. Qed.

Example buy_then_partial_sell :
  entry_is "BTC"
    (Summary.mk (Q2Qc 1) (Q2Qc 100) (Q2Qc 200) (Q2Qc 200) (Q2Qc 100)
                (Q2Qc 100) (Q2Qc 200) (Q2Qc 100) (Some (Q2Qc 200)))
    (computePnL [Tx.mk "2024-01-01" "BTC" "BUY" (Q2Qc 100) (Q2Qc 2);
                 Tx.mk "2024-01-15" "BTC" "SELL" (Q2Qc 200) (Q2Qc 1)]
                [("BTC"%string, Q2Qc 200)])
  = true.
Proof. vm_compute. reflexivity. Qed.

(** The input order does not matter when the dates differ. *)
Example unsorted_input_is_sorted :
  entry_is "BTC"
    (Summary.mk (Q2Qc 1) (Q2Qc 100) (Q2Qc 200) (Q2Qc 200) (Q2Qc 100)
                (Q2Qc 100) (Q2Qc 200) (Q2Qc 100) (Some (Q2Qc 200)))
    (computePnL [Tx.mk "2024-01-15" "BTC" "SELL" (Q2Qc 200) (Q2Qc 1);
                 Tx.mk "2024-01-01" "BTC" "BUY" (Q2Qc 100) (Q2Qc 2)]
                [("BTC"%string, Q2Qc 200)])
  = true.
Proof. vm_compute. reflexivity. Qed.

Example single_month_history :
  match computeMonthlyHistory
          [Tx.mk "2024-03-05" "BTC" "BUY" (Q2Qc 100) (Q2Qc 2)]
          [("BTC"%string, Q2Qc 100)] with
  | Some [e] =>
      (String.eqb (Entry.month e) "2024-03"
       && Qc_eq_bool (Entry.return_ e) 0
       && Qc_eq_bool (Entry.invested e) (Entry.value e)
       && Qc_eq_bool (Entry.invested e) (Q2Qc 200))%bool
  | _ => false
  end = true.
Proof. vm_compute. reflexivity. Qed.

(** ** Arithmetic on numbers *)

Lemma this_plus (x y : Qc) : (this (x + y) == this x + this y)%Q.
Proof. unfold Qcplus, Q2Qc, this. apply Qred_correct. Qed.

Lemma this_mult (x y : Qc) : (this (x * y) == this x * this y)%Q.
Proof. unfold Qcmult, Q2Qc, this. apply Qred_correct. Qed.

Lemma this_opp (x : Qc) : (this (- x) == - this x)%Q.
Proof. unfold Qcopp, Q2Qc, this. apply Qred_correct. Qed.

Lemma this_minus (x y : Qc) : (this (x - y) == this x - this y)%Q.
Proof. unfold Qcminus. rewrite this_plus, this_opp. reflexivity. Qed.

Lemma this_epsilon : (this epsilon == 1 # 100000000)%Q.
Proof. reflexivity. Qed.

Lemma Qc_eq_this (x y : Qc) : x = y <-> (this x == this y)%Q.
Proof. split; [intros ->; reflexivity | apply Qc_is_canon]. Qed.

(** Goals and hypotheses on [Qc] are read as statements on [Q], where
    [lra] and [nra] decide them. *)
Ltac qc_to_q :=
  unfold Qcle, Qclt in *;
  repeat match goal with
  | H : @eq Qc _ _ |- _ => apply Qc_eq_this in H
  | H : ~ @eq Qc _ _ |- _ => rewrite Qc_eq_this in H
  | |- @eq Qc _ _ => apply Qc_is_canon
  | |- ~ @eq Qc _ _ => rewrite Qc_eq_this
  end;
  repeat (rewrite ?this_plus, ?this_mult, ?this_opp, ?this_minus,
            ?this_epsilon in * );
  change (this 0) with 0%Q in *; change (this 1) with 1%Q in *.

Ltac qc_lra := qc_to_q; lra.

Lemma Qcltb_lt (x y : number) : Qcltb x y = true <-> x < y.
Proof.
  unfold Qcltb. rewrite Qclt_alt.
  destruct (x ?= y); split; congruence.
Qed.

Lemma Qcltb_ge (x y : number) : Qcltb x y = false <-> y <= x.
Proof.
  split; intros H.
  - apply Qcnot_lt_le. rewrite <- Qcltb_lt. congruence.
  - destruct (Qcltb x y) eqn:E; [|reflexivity].
    apply Qcltb_lt in E. exfalso. exact (Qcle_not_lt _ _ H E).
Qed.

Lemma Qcleb_le (x y : number) : Qcleb x y = true <-> x <= y.
Proof.
  unfold Qcleb. rewrite Qcle_alt.
  destruct (x ?= y); split; congruence.
Qed.

Lemma Qcleb_gt (x y : number) : Qcleb x y = false <-> y < x.
Proof.
  split; intros H.
  - apply Qcnot_le_lt. rewrite <- Qcleb_le. congruence.
  - destruct (Qcleb x y) eqn:E; [|reflexivity].
    apply Qcleb_le in E. exfalso. exact (Qclt_not_le _ _ H E).
Qed.

(** Case analysis on the comparisons the code makes. *)
Ltac cases_ltb x y :=
  let E := fresh "E" in
  destruct (Qcltb x y) eqn:E;
  [apply Qcltb_lt in E | apply Qcltb_ge in E].

Ltac cases_leb x y :=
  let E := fresh "E" in
  destruct (Qcleb x y) eqn:E;
  [apply Qcleb_le in E | apply Qcleb_gt in E].

Lemma Math_min_cases (x y : number) :
  (x <= y /\ Math_min x y = x) \/ (y < x /\ Math_min x y = y).
Proof. unfold Math_min. cases_leb x y; auto. Qed.

Lemma Qcmax_cases (x y : number) :
  (x <= y /\ Qcmax x y = y) \/ (y < x /\ Qcmax x y = x).
Proof. unfold Qcmax. cases_leb x y; auto. Qed.

Lemma Qc_eq_bool_true (x y : number) : Qc_eq_bool x y = true -> x = y.
Proof. apply Qc_eq_bool_correct. Qed.

(** ** Sums *)

Lemma fold_sum_shift {A : Type} (f : A -> number) (l : list A) (z : number) :
  fold_left (fun sum x => sum + f x) l z = z + sum_by f l.
Proof.
  unfold sum_by. revert z.
  induction l as [|x l IH]; intros z; simpl.
  - qc_lra.
  - rewrite (IH (z + f x)), (IH (0 + f x)). qc_lra.
Qed.

Lemma sum_by_nil {A : Type} (f : A -> number) : sum_by f [] = 0.
Proof. reflexivity. Qed.

Lemma sum_by_cons {A : Type} (f : A -> number) (x : A) (l : list A) :
  sum_by f (x :: l) = f x + sum_by f l.
Proof.
  unfold sum_by at 1. simpl. rewrite fold_sum_shift. qc_lra.
Qed.

Lemma sum_by_app {A : Type} (f : A -> number) (l1 l2 : list A) :
  sum_by f (l1 ++ l2) = sum_by f l1 + sum_by f l2.
Proof.
  induction l1 as [|x l1 IH]; simpl.
  - rewrite sum_by_nil. qc_lra.
  - rewrite !sum_by_cons, IH. qc_lra.
Qed.

Lemma sum_by_Permutation {A : Type} (f : A -> number) (l1 l2 : list A) :
  Permutation l1 l2 -> sum_by f l1 = sum_by f l2.
Proof.
  induction 1 as [|x l l' _ IH|x y l|l l' l'' _ IH1 _ IH2].
  - reflexivity.
  - rewrite !sum_by_cons, IH. reflexivity.
  - rewrite !sum_by_cons. qc_lra.
  - congruence.
Qed.

Lemma sum_by_nonneg {A : Type} (f : A -> number) (l : list A) :
  Forall (fun x => 0 <= f x) l -> 0 <= sum_by f l.
Proof.
  induction 1 as [|x l Hx _ IH].
  - rewrite sum_by_nil. qc_lra.
  - rewrite sum_by_cons. qc_lra.
Qed.

(** ** Objects *)

Lemma get_set_same {V : Type} (k : string) (v : V) (o : Obj.t V) :
  Obj.get k (Obj.set k v o) = Some v.
Proof.
  induction o as [|[k' v'] o IH]; simpl.
  - now rewrite String.eqb_refl.
  - destruct (String.eqb k k') eqn:E; simpl; rewrite E; auto.
Qed.

Lemma get_set_other {V : Type} (k k' : string) (v : V) (o : Obj.t V) :
  k <> k' -> Obj.get k (Obj.set k' v o) = Obj.get k o.
Proof.
  intros Hk. apply String.eqb_neq in Hk.
  induction o as [|[k0 v0] o IH]; simpl.
  - now rewrite Hk.
  - destruct (String.eqb k' k0) eqn:E; simpl.
    + apply String.eqb_eq in E. subst k0. now rewrite Hk.
    + now rewrite IH.
Qed.

Lemma set_get_same {V : Type} (k : string) (v : V) (o : Obj.t V) :
  Obj.get k o = Some v -> Obj.set k v o = o.
Proof.
  induction o as [|[k' v'] o IH]; simpl; [discriminate|].
  destruct (String.eqb k k') eqn:E; intros H.
  - congruence.
  - now rewrite IH.
Qed.

Lemma get_In_keys {V : Type} (k : string) (o : Obj.t V) :
  In k (Obj.keys o) <-> exists v, Obj.get k o = Some v.
Proof.
  induction o as [|[k' v'] o IH]; simpl.
  - split; [tauto | intros [v H]; discriminate].
  - destruct (String.eqb k k') eqn:E.
    + apply String.eqb_eq in E. subst. split; eauto.
    + apply String.eqb_neq in E. rewrite <- IH. split; [|tauto].
      intros [H|H]; [congruence | assumption].
Qed.

Lemma get_None_keys {V : Type} (k : string) (o : Obj.t V) :
  Obj.get k o = None <-> ~ In k (Obj.keys o).
Proof.
  rewrite get_In_keys. split.
  - intros H [v Hv]. congruence.
  - intros H. destruct (Obj.get k o) eqn:E; [|reflexivity].
    exfalso. eauto.
Qed.

Lemma keys_set {V : Type} (k : string) (v : V) (o : Obj.t V) (a : string) :
  In a (Obj.keys (Obj.set k v o)) <-> In a (Obj.keys o) \/ a = k.
Proof.
  rewrite !get_In_keys.
  destruct (string_dec a k) as [->|Hne].
  - rewrite get_set_same. split; eauto.
  - rewrite get_set_other by assumption. tauto.
Qed.

Lemma get_fold_set {V : Type} (g : string -> V) (ks : list string)
  (acc : Obj.t V) (a : string) :
  Obj.get a (fold_left (fun r k => Obj.set k (g k) r) ks acc)
  = if in_dec string_dec a ks then Some (g a) else Obj.get a acc.
Proof.
  revert acc. induction ks as [|k ks IH]; intros acc; simpl; [reflexivity|].
  rewrite IH.
  destruct (in_dec string_dec a ks) as [Hin|Hnin].
  - destruct (string_dec k a); reflexivity.
  - destruct (string_dec k a) as [->|Hne].
    + apply get_set_same.
    + apply get_set_other. congruence.
Qed.

(** ** The SELL loop *)

Lemma sell_while_exit (fuel : nat) (price : number) (st : SellState) :
  (Qcltb 0 (qtyToSell st) && (0 <? List.length (lots st))%nat)%bool = false ->
  sell_while fuel price st = Some st.
Proof. intros H. destruct fuel; simpl; rewrite H; reflexivity. Qed.

Lemma sell_while_step (fuel : nat) (price : number) (st : SellState) :
  (Qcltb 0 (qtyToSell st) && (0 <? List.length (lots st))%nat)%bool = true ->
  sell_while (S fuel) price st = sell_while fuel price (sell_iter price st).
Proof. intros H. simpl. rewrite H. reflexivity. Qed.

Lemma sell_iter_cons (price qty realised : number) (lot : Lot.t)
  (rest : list Lot.t) :
  sell_iter price (mkSell qty (lot :: rest) realised)
  = let sellQty := Math_min (Lot.quantity lot) qty in
    if Qcleb (Lot.quantity lot - sellQty) epsilon
    then mkSell (qty - sellQty) rest
                (realised + sellQty * (price - Lot.price lot))
    else mkSell (qty - sellQty)
                (Lot.mk (Lot.quantity lot - sellQty) (Lot.price lot) :: rest)
                (realised + sellQty * (price - Lot.price lot)).
Proof. reflexivity. Qed.

(** The loop ends within as many passes as the queue has lots, in the state
    [sell_fifo] computes. *)
Lemma sell_while_fifo (price : number) (queue : list Lot.t) :
  forall (fuel : nat) (qty realised : number),
    (List.length queue <= fuel)%nat ->
    sell_while fuel price (mkSell qty queue realised)
    = Some (sell_fifo price qty queue realised).
Proof.
  induction queue as [|lot rest IH]; intros fuel qty realised Hfuel.
  - apply sell_while_exit. simpl. apply andb_false_r.
  - simpl in Hfuel. simpl sell_fifo.
    destruct (Qcltb 0 qty) eqn:Hq.
    + destruct fuel as [|fuel]; [lia|].
      rewrite sell_while_step by (simpl; now rewrite Hq).
      rewrite sell_iter_cons. cbv zeta.
      cases_leb (Lot.quantity lot - Math_min (Lot.quantity lot) qty) epsilon.
      * apply IH. lia.
      * apply sell_while_exit. simpl.
        assert (Hz : qty - Math_min (Lot.quantity lot) qty = 0).
        { destruct (Math_min_cases (Lot.quantity lot) qty) as [[_ Hm]|[_ Hm]];
            rewrite Hm in *; qc_lra. }
        rewrite Hz. reflexivity.
    + apply sell_while_exit. simpl. now rewrite Hq.
Qed.


(** ** The replay, seen from one asset *)

Lemma get_lots_set (a k : string) (l : list Lot.t) (o : Obj.t (list Lot.t)) :
  get_lots a (Obj.set k l o) = if string_dec a k then l else get_lots a o.
Proof.
  unfold get_lots. destruct (string_dec a k) as [->|Hne].
  - now rewrite get_set_same.
  - now rewrite get_set_other.
Qed.

Lemma get_or_zero_set (a k : string) (r : number) (o : Obj.t number) :
  get_or_zero a (Obj.set k r o) = if string_dec a k then r else get_or_zero a o.
Proof.
  unfold get_or_zero. destruct (string_dec a k) as [->|Hne].
  - now rewrite get_set_same.
  - now rewrite get_set_other.
Qed.

Lemma get_lots_init (a k : string) (o : Obj.t (list Lot.t)) :
  get_lots a (init_lots k o) = get_lots a o.
Proof.
  unfold init_lots. destruct (Obj.get k o) eqn:E; [reflexivity|].
  rewrite get_lots_set. destruct (string_dec a k) as [->|]; [|reflexivity].
  unfold get_lots. now rewrite E.
Qed.

Lemma get_or_zero_init (a k : string) (o : Obj.t number) :
  get_or_zero a (init_realised k o) = get_or_zero a o.
Proof.
  unfold init_realised. destruct (Obj.get k o) as [r|] eqn:E.
  - destruct (Qc_eq_bool r 0) eqn:E0; [|reflexivity].
    apply Qc_eq_bool_true in E0. subst r.
    now rewrite (set_get_same _ _ _ E).
  - rewrite get_or_zero_set. destruct (string_dec a k) as [->|]; [|reflexivity].
    unfold get_or_zero. now rewrite E.
Qed.

Lemma keys_init_lots (a k : string) (o : Obj.t (list Lot.t)) :
  In a (Obj.keys (init_lots k o)) <-> In a (Obj.keys o) \/ a = k.
Proof.
  unfold init_lots. destruct (Obj.get k o) eqn:E.
  - split; [tauto|]. intros [H| ->]; [assumption|].
    apply get_In_keys. eauto.
  - apply keys_set.
Qed.

Lemma buy_is_not_sell (tx : Tx.t) : is_buy tx = true -> is_sell tx = false.
Proof.
  unfold is_buy, is_sell. intros H. apply String.eqb_eq in H.
  rewrite H. reflexivity.
Qed.

Lemma replay_tx_total (L : Ledger) (tx : Tx.t) :
  exists L', replay_tx L tx = Some L'.
Proof.
  unfold replay_tx.
  destruct (String.eqb (Tx.type tx) "BUY"); [eauto|].
  destruct (String.eqb (Tx.type tx) "SELL"); [|eauto].
  rewrite sell_while_fifo by lia. eauto.
Qed.

Lemma replay_total (txs : list Tx.t) :
  forall L, exists L', replay L txs = Some L'.
Proof.
  induction txs as [|tx txs IH]; intros L; simpl; [eauto|].
  destruct (replay_tx_total L tx) as [L1 ->]. apply IH.
Qed.

Lemma replay_tx_view (a : string) (L L' : Ledger) (tx : Tx.t) :
  replay_tx L tx = Some L' ->
  asset_view a L' = asset_step a (asset_view a L) tx.
Proof.
  unfold replay_tx, asset_step, asset_view, of_asset, is_buy, is_sell.
  destruct (String.eqb (Tx.type tx) "BUY").
  - intros [= <-]. simpl.
    rewrite get_lots_set, !get_lots_init, get_or_zero_init.
    destruct (string_dec a (Tx.asset tx)) as [->|Hne].
    + now rewrite String.eqb_refl.
    + apply not_eq_sym, String.eqb_neq in Hne. now rewrite Hne.
  - destruct (String.eqb (Tx.type tx) "SELL").
    + rewrite sell_while_fifo by lia. intros [= <-]. simpl.
      rewrite get_lots_set, get_or_zero_set, !get_lots_init, !get_or_zero_init.
      destruct (string_dec a (Tx.asset tx)) as [->|Hne].
      * now rewrite String.eqb_refl.
      * apply not_eq_sym, String.eqb_neq in Hne. now rewrite Hne.
    + intros [= <-]. simpl.
      rewrite get_lots_init, get_or_zero_init.
      now destruct (String.eqb (Tx.asset tx) a).
Qed.

Lemma replay_tx_keys (a : string) (L L' : Ledger) (tx : Tx.t) :
  replay_tx L tx = Some L' ->
  (In a (Obj.keys (lotsByAsset L'))
   <-> In a (Obj.keys (lotsByAsset L)) \/ a = Tx.asset tx).
Proof.
  unfold replay_tx.
  destruct (String.eqb (Tx.type tx) "BUY").
  - intros [= <-]. simpl. rewrite keys_set, keys_init_lots. tauto.
  - destruct (String.eqb (Tx.type tx) "SELL").
    + rewrite sell_while_fifo by lia. intros [= <-]. simpl.
      rewrite keys_set, keys_init_lots. tauto.
    + intros [= <-]. simpl. apply keys_init_lots.
Qed.

Lemma replay_view (a : string) (txs : list Tx.t) :
  forall L L', replay L txs = Some L' ->
    asset_view a L' = fold_left (asset_step a) txs (asset_view a L).
Proof.
  induction txs as [|tx txs IH]; intros L L'; simpl.
  - now intros [= <-].
  - destruct (replay_tx L tx) as [L1|] eqn:E; [|discriminate].
    intros H. rewrite (IH _ _ H), (replay_tx_view a _ _ _ E). reflexivity.
Qed.

Lemma replay_keys (a : string) (txs : list Tx.t) :
  forall L L', replay L txs = Some L' ->
    (In a (Obj.keys (lotsByAsset L'))
     <-> In a (Obj.keys (lotsByAsset L))
         \/ exists tx, In tx txs /\ Tx.asset tx = a).
Proof.
  induction txs as [|tx txs IH]; intros L L'; simpl.
  - intros [= <-]. split; [tauto|]. intros [H|[tx [[] _]]]. assumption.
  - destruct (replay_tx L tx) as [L1|] eqn:E; [|discriminate].
    intros H. rewrite (IH _ _ H), (replay_tx_keys a _ _ _ E).
    split.
    + intros [[Hin|Heq]|[tx' [Hin Heq]]]; eauto 6.
    + intros [Hin|[tx' [[->|Hin] Heq]]]; eauto 6.
Qed.

(** What [computePnL] returns, asset by asset. *)
Lemma computePnL_total (txs : list Tx.t) (prices : Obj.t number) :
  exists summary, computePnL txs prices = Some summary.
Proof.
  unfold computePnL.
  destruct (replay_total (sorted txs) empty_ledger) as [L ->]. eauto.
Qed.

Lemma computePnL_get (txs : list Tx.t) (prices : Obj.t number)
  (summary : Obj.t Summary.t) (a : string) (s : Summary.t) :
  computePnL txs prices = Some summary ->
  Obj.get a summary = Some s ->
  exists L,
    replay empty_ledger (sorted txs) = Some L
    /\ s = summarise prices L a
    /\ asset_view a L = asset_replay a (sorted txs)
    /\ exists tx, In tx (sorted txs) /\ Tx.asset tx = a.
Proof.
  unfold computePnL.
  destruct (replay empty_ledger (sorted txs)) as [L|] eqn:E; [|discriminate].
  intros [= <-]. unfold build_summary. rewrite get_fold_set.
  destruct (in_dec string_dec a (Obj.keys (lotsByAsset L))) as [Hin|Hnin];
    [|discriminate].
  intros [= <-]. exists L. repeat split; auto.
  - apply (replay_view a) in E. exact E.
  - apply (replay_keys a) in E. apply E in Hin.
    destruct Hin as [[]|Hin]. exact Hin.
Qed.

(** ** Sorting *)

Section SortFacts.

Context {A : Type}.
Variable comparefn : A -> A -> Z.

Lemma sort_insert_Permutation (x : A) (l : list A) :
  Permutation (sort_insert comparefn x l) (x :: l).
Proof.
  induction l as [|y l IH]; simpl; [reflexivity|].
  destruct (comparefn x y <=? 0)%Z; [reflexivity|].
  rewrite IH. apply perm_swap.
Qed.

Lemma Array_sort_Permutation (l : list A) :
  Permutation (Array_sort comparefn l) l.
Proof.
  induction l as [|x l IH]; simpl; [reflexivity|].
  rewrite sort_insert_Permutation. now apply perm_skip.
Qed.

(** A comparator that is consistent with an order [le] on the elements
    that satisfy [dom]. *)
Variable dom : A -> Prop.
Variable le : A -> A -> Prop.
Hypothesis le_trans : forall x y z, le x y -> le y z -> le x z.
Hypothesis compare_le :
  forall x y, dom x -> dom y -> (comparefn x y <= 0)%Z -> le x y.
Hypothesis compare_gt :
  forall x y, dom x -> dom y -> (comparefn x y > 0)%Z -> le y x.

Lemma sort_insert_sorted (x : A) (l : list A) :
  dom x -> Forall dom l -> StronglySorted le l ->
  StronglySorted le (sort_insert comparefn x l).
Proof.
  intros Hx Hdom Hs. induction Hs as [|y l Hs IH Hy]; simpl.
  - repeat constructor.
  - inversion Hdom as [|? ? Hdy Hdl]; subst.
    destruct (comparefn x y <=? 0)%Z eqn:E.
    + apply Z.leb_le in E. constructor; [now constructor|].
      assert (Hxy : le x y) by now apply compare_le.
      constructor; [assumption|].
      eapply Forall_impl; [|exact Hy]. intros z Hz. eauto.
    + apply Z.leb_gt in E. constructor; [now apply IH|].
      eapply Permutation_Forall.
      * symmetry. apply sort_insert_Permutation.
      * constructor; [|assumption]. apply compare_gt; auto. lia.
Qed.

Lemma Array_sort_sorted (l : list A) :
  Forall dom l -> StronglySorted le (Array_sort comparefn l).
Proof.
  induction 1 as [|x l Hx Hl IH]; simpl; [constructor|].
  apply sort_insert_sorted; auto.
  eapply Permutation_Forall; [|exact Hl].
  symmetry. apply Array_sort_Permutation.
Qed.

End SortFacts.

Section StableSort.

Context {A : Type}.
Variable comparefn : A -> A -> Z.
Variable dom : A -> Prop.
Variable key : A -> Z.
Hypothesis compare_key :
  forall x y, dom x -> dom y -> comparefn x y = (key x - key y)%Z.

Lemma filter_key_head (x : A) (l : list A) :
  filter (with_key key (key x)) (x :: l)
  = x :: filter (with_key key (key x)) l.
Proof. simpl. unfold with_key at 1. now rewrite Z.eqb_refl. Qed.

Lemma filter_key_skip (t : Z) (x : A) (l : list A) :
  key x <> t ->
  filter (with_key key t) (x :: l) = filter (with_key key t) l.
Proof.
  intros H. simpl. unfold with_key at 1.
  apply Z.eqb_neq in H. now rewrite H.
Qed.

Lemma sort_insert_stable (t : Z) (x : A) (l : list A) :
  dom x -> Forall dom l ->
  filter (with_key key t) (sort_insert comparefn x l)
  = filter (with_key key t) (x :: l).
Proof.
  intros Hx Hl. induction Hl as [|y l Hy Hl IH]; [reflexivity|].
  simpl sort_insert. destruct (comparefn x y <=? 0)%Z eqn:E; [reflexivity|].
  apply Z.leb_gt in E. rewrite compare_key in E by assumption.
  destruct (Z.eq_dec (key x) t) as [Hxt|Hxt].
  - subst t. rewrite (filter_key_skip (key x) y) by lia.
    rewrite IH, !filter_key_head. now rewrite filter_key_skip by lia.
  - rewrite (filter_key_skip t x (y :: l)) by assumption.
    rewrite filter_key_skip in IH by assumption.
    simpl. now rewrite IH.
Qed.

Lemma Array_sort_stable (t : Z) (l : list A) :
  Forall dom l ->
  filter (with_key key t) (Array_sort comparefn l) = filter (with_key key t) l.
Proof.
  induction 1 as [|x l Hx Hl IH]; [reflexivity|].
  simpl Array_sort. rewrite sort_insert_stable; auto.
  - simpl. now rewrite IH.
  - eapply Permutation_Forall; [|exact Hl].
    symmetry. apply Array_sort_Permutation.
Qed.

Lemma class_of_head (x : A) (l l' : list A) :
  filter (with_key key (key x)) (x :: l) = filter (with_key key (key x)) l' ->
  In x l'.
Proof.
  rewrite filter_key_head. intros H.
  assert (Hin : In x (filter (with_key key (key x)) l'))
    by (rewrite <- H; now left).
  now apply filter_In in Hin.
Qed.

(** A list sorted by key is determined by its classes of equal key. *)
Lemma sorted_by_classes (l1 : list A) :
  forall l2,
    StronglySorted (fun x y => (key x <= key y)%Z) l1 ->
    StronglySorted (fun x y => (key x <= key y)%Z) l2 ->
    (forall t, filter (with_key key t) l1 = filter (with_key key t) l2) ->
    l1 = l2.
Proof.
  induction l1 as [|x l1 IH]; intros l2 Hs1 Hs2 Hcl.
  - destruct l2 as [|y l2]; [reflexivity|].
    specialize (Hcl (key y)). rewrite filter_key_head in Hcl. discriminate.
  - destruct l2 as [|y l2].
    + specialize (Hcl (key x)). rewrite filter_key_head in Hcl. discriminate.
    + assert (Hk : key x = key y).
      { pose proof (class_of_head x l1 (y :: l2) (Hcl (key x))) as Hz.
        pose proof (class_of_head y l2 (x :: l1) (eq_sym (Hcl (key y)))) as Hw.
        inversion Hs1 as [|? ? _ Hx]; inversion Hs2 as [|? ? _ Hy]; subst.
        rewrite Forall_forall in Hx, Hy.
        assert (key y <= key x)%Z.
        { destruct Hz as [<-|Hz]; [lia | now apply Hy]. }
        assert (key x <= key y)%Z.
        { destruct Hw as [<-|Hw]; [lia | now apply Hx]. }
        lia. }
      assert (Hxy : x = y).
      { specialize (Hcl (key x)). rewrite filter_key_head in Hcl.
        rewrite Hk, filter_key_head in Hcl. congruence. }
      subst y. f_equal.
      inversion Hs1; inversion Hs2; subst.
      apply IH; auto.
      intros t. specialize (Hcl t).
      destruct (Z.eq_dec (key x) t) as [<-|Hne].
      * rewrite !filter_key_head in Hcl. congruence.
      * now rewrite !filter_key_skip in Hcl by assumption.
Qed.

End StableSort.

(** ** The chronological sort of [computePnL] *)

Lemma date_compare_key (x y : Tx.t) :
  valid_date x -> valid_date y ->
  date_compare x y = (time_of x - time_of y)%Z.
Proof.
  unfold valid_date, date_compare, time_of.
  destruct (JSDate.parse (Tx.date x)), (JSDate.parse (Tx.date y));
    intros Hx Hy; congruence.
Qed.

Lemma sorted_Permutation (txs : list Tx.t) : Permutation (sorted txs) txs.
Proof. apply Array_sort_Permutation. Qed.

Lemma sorted_ascending (txs : list Tx.t) :
  Forall valid_date txs ->
  StronglySorted (fun x y => (time_of x <= time_of y)%Z) (sorted txs).
Proof.
  apply Array_sort_sorted.
  - intros x y z. lia.
  - intros x y Hx Hy. rewrite date_compare_key by assumption. lia.
  - intros x y Hx Hy. rewrite date_compare_key by assumption. lia.
Qed.

Lemma sorted_stable (t : Z) (txs : list Tx.t) :
  Forall valid_date txs ->
  filter (at_time t) (sorted txs) = filter (at_time t) txs.
Proof.
  apply (Array_sort_stable date_compare valid_date time_of).
  apply date_compare_key.
Qed.


Lemma sorted_in_order (x y : Tx.t) :
  (date_compare x y <= 0)%Z -> sorted [x; y] = [x; y].
Proof.
  intros H. unfold sorted. simpl.
  apply Z.leb_le in H. now rewrite H.
Qed.

(** ** Realised PnL and consumed portions *)

Lemma sell_fifo_portions (price : number) (queue : list Lot.t) :
  forall qty realised,
    lots (sell_fifo price qty queue realised)
    = snd (fifo_portions price qty queue)
    /\ realisedAcc (sell_fifo price qty queue realised)
       = realised + sum_by portion_pnl (fst (fifo_portions price qty queue)).
Proof.
  induction queue as [|lot rest IH]; intros qty realised; simpl.
  - split; [reflexivity|]. rewrite sum_by_nil. qc_lra.
  - destruct (Qcltb 0 qty).
    + destruct (Qcleb (Lot.quantity lot - Math_min (Lot.quantity lot) qty)
                      epsilon).
      * specialize (IH (qty - Math_min (Lot.quantity lot) qty)
                       (realised + Math_min (Lot.quantity lot) qty
                                   * (price - Lot.price lot))).
        destruct (fifo_portions price
                    (qty - Math_min (Lot.quantity lot) qty) rest)
          as [ps queue'].
        simpl in *. destruct IH as [-> ->]. split; [reflexivity|].
        rewrite sum_by_cons. unfold portion_pnl at 2. simpl. qc_lra.
      * simpl. split; [reflexivity|].
        rewrite sum_by_cons, sum_by_nil. unfold portion_pnl. simpl. qc_lra.
    + simpl. split; [reflexivity|]. rewrite sum_by_nil. qc_lra.
Qed.

Lemma asset_replay_portions (a : string) (txs : list Tx.t) :
  forall queue realised,
    snd (fold_left (asset_step a) txs (queue, realised))
    = realised + sum_by portion_pnl (asset_portions a txs queue).
Proof.
  induction txs as [|tx txs IH]; intros queue realised; simpl.
  - rewrite sum_by_nil. qc_lra.
  - unfold asset_step at 2. simpl fst. simpl snd.
    destruct (of_asset a tx); [|apply IH].
    destruct (is_buy tx); [apply IH|].
    destruct (is_sell tx); [|apply IH].
    destruct (sell_fifo_portions (Tx.price tx) queue (Tx.quantity tx) realised)
      as [Hl Hr].
    destruct (fifo_portions (Tx.price tx) (Tx.quantity tx) queue)
      as [ps queue'].
    simpl in Hl, Hr. rewrite Hl, Hr, IH, sum_by_app. qc_lra.
Qed.

Lemma summarise_realised (prices : Obj.t number) (L : Ledger) (a : string) :
  Summary.realised (summarise prices L a) = snd (asset_view a L).
Proof. reflexivity. Qed.

Lemma summarise_quantity (prices : Obj.t number) (L : Ledger) (a : string) :
  Summary.quantity (summarise prices L a)
  = sum_by Lot.quantity (fst (asset_view a L)).
Proof. reflexivity. Qed.

Lemma summarise_invested (prices : Obj.t number) (L : Ledger) (a : string) :
  Summary.invested (summarise prices L a)
  = sum_by (fun lot => Lot.quantity lot * Lot.price lot) (fst (asset_view a L)).
Proof. reflexivity. Qed.

(** ** Which assets the summary lists *)

Lemma computePnL_entry (txs : list Tx.t) (prices : Obj.t number)
  (summary : Obj.t Summary.t) (a : string) :
  computePnL txs prices = Some summary ->
  ((exists s, Obj.get a summary = Some s)
   <-> exists tx, In tx txs /\ Tx.asset tx = a).
Proof.
  unfold computePnL.
  destruct (replay empty_ledger (sorted txs)) as [L|] eqn:E; [|discriminate].
  intros [= <-]. unfold build_summary. rewrite get_fold_set.
  apply (replay_keys a) in E. simpl in E.
  assert (Hperm : forall tx, In tx (sorted txs) <-> In tx txs).
  { intros tx. split; apply Permutation_in;
      [apply sorted_Permutation | symmetry; apply sorted_Permutation]. }
  destruct (in_dec string_dec a (Obj.keys (lotsByAsset L))) as [Hin|Hnin].
  - split; [|eauto]. intros _. apply E in Hin.
    destruct Hin as [[]|[tx [Hin Ha]]]. exists tx. split; [now apply Hperm|auto].
  - split; [intros [s Hs]; discriminate|].
    intros [tx [Hin Ha]]. exfalso. apply Hnin, E. right.
    exists tx. split; [now apply Hperm|auto].
Qed.

(** C1: the realised PnL [computePnL] reports for an asset is the sum of
    [consumed * (sell_price - acquisition_price)] over the lot portions its
    SELL events consume, oldest lot first, in date order; and one BUY of
    [q] units at [p1] followed by a SELL of the same [q] units at [p2]
    realises exactly [q * (p2 - p1)]. *)
Theorem realised_is_sum_of_consumed_portions :
  (forall txs prices summary a s,
      computePnL txs prices = Some summary ->
      Obj.get a summary = Some s ->
      Summary.realised s
      = sum_by portion_pnl (asset_portions a (sorted txs) []))
  /\ (forall a d1 d2 q p1 p2 prices,
         0 <= q ->
         (date_compare (Tx.mk d1 a "BUY" p1 q) (Tx.mk d2 a "SELL" p2 q) <= 0)%Z ->
         exists summary s,
           computePnL [Tx.mk d1 a "BUY" p1 q; Tx.mk d2 a "SELL" p2 q] prices
           = Some summary
           /\ Obj.get a summary = Some s
           /\ Summary.realised s = q * (p2 - p1)).
Proof.
  assert (General : forall txs prices summary a s,
             computePnL txs prices = Some summary ->
             Obj.get a summary = Some s ->
             Summary.realised s
             = sum_by portion_pnl (asset_portions a (sorted txs) [])).
  { intros txs prices summary a s Hc Hs.
    destruct (computePnL_get _ _ _ _ _ Hc Hs) as [L [_ [-> [Hview _]]]].
    rewrite summarise_realised, Hview. unfold asset_replay.
    rewrite asset_replay_portions. qc_lra. }
  split; [exact General|].
  intros a d1 d2 q p1 p2 prices Hq Hd.
  destruct (computePnL_total [Tx.mk d1 a "BUY" p1 q; Tx.mk d2 a "SELL" p2 q]
              prices) as [summary Hc].
  assert (Hs : exists s, Obj.get a summary = Some s).
  { apply (computePnL_entry _ _ _ a Hc).
    eexists. split; [left; reflexivity | reflexivity]. }
  destruct Hs as [s Hs]. exists summary, s. repeat split; auto.
  rewrite (General _ _ _ _ _ Hc Hs), sorted_in_order by assumption.
  simpl. unfold of_asset, is_buy, is_sell. simpl.
  rewrite String.eqb_refl. simpl.
  cases_ltb 0 q.
  - destruct (Math_min_cases q q) as [[_ Hm]|[_ Hm]]; rewrite Hm;
      (cases_leb (q - q) epsilon; [|exfalso; qc_lra]);
      simpl; rewrite sum_by_cons, sum_by_nil; unfold portion_pnl; simpl;
      qc_lra.
  - simpl. rewrite sum_by_nil. assert (q = 0) by qc_lra. subst q. qc_lra.
Qed.

Lemma realised_is_sum_of_consumed_portions_witness :
  exists summary s,
    computePnL [Tx.mk "2024-01-01" "BTC" "BUY" (Q2Qc 100) (Q2Qc 1);
                Tx.mk "2024-02-01" "BTC" "SELL" (Q2Qc 150) (Q2Qc 1)]
               [("BTC"%string, Q2Qc 150)]
    = Some summary
    /\ Obj.get "BTC" summary = Some s
    /\ Summary.realised s = Q2Qc 1 * (Q2Qc 150 - Q2Qc 100).
Proof.
  apply (proj2 realised_is_sum_of_consumed_portions).
  - unfold Qcle. simpl. unfold Qle. simpl. lia.
  - apply Z.leb_le. vm_compute. reflexivity.
Defined.



(** C5, as the code has it: the summary lists an asset exactly when some
    transaction of the list, of whatever type, names it; so an asset that
    was bought and sold out again is listed with quantity zero and its
    realised PnL. *)
Theorem summary_lists_every_asset_named :
  (forall txs prices summary a,
      computePnL txs prices = Some summary ->
      ((exists s, Obj.get a summary = Some s)
       <-> exists tx, In tx txs /\ Tx.asset tx = a))
  /\ (exists summary s,
         computePnL [Tx.mk "2024-01-01" "BTC" "BUY" (Q2Qc 100) (Q2Qc 1);
                     Tx.mk "2024-02-01" "BTC" "SELL" (Q2Qc 150) (Q2Qc 1)]
                    [("BTC"%string, Q2Qc 150)]
         = Some summary
         /\ Obj.get "BTC" summary = Some s
         /\ Summary.quantity s = 0
         /\ Summary.realised s = Q2Qc 50).
Proof.
  split; [exact computePnL_entry|].
  set (txs := [Tx.mk "2024-01-01" "BTC" "BUY" (Q2Qc 100) (Q2Qc 1);
               Tx.mk "2024-02-01" "BTC" "SELL" (Q2Qc 150) (Q2Qc 1)]).
  destruct (computePnL_total txs [("BTC"%string, Q2Qc 150)]) as [summary Hc].
  assert (Hs : exists s, Obj.get "BTC" summary = Some s).
  { apply (computePnL_entry _ _ _ "BTC"%string Hc).
    eexists. split; [left; reflexivity | reflexivity]. }
  destruct Hs as [s Hs]. exists summary, s.
  split; [assumption|]. split; [assumption|].
  destruct (computePnL_get _ _ _ _ _ Hc Hs) as [L [_ [-> [Hview _]]]].
  rewrite summarise_realised, summarise_quantity, Hview.
  split; apply Qc_is_canon; vm_compute; reflexivity.
Qed.

Lemma summary_lists_every_asset_named_witness :
  let txs := [Tx.mk "2024-01-01" "BTC" "SELL" (Q2Qc 100) (Q2Qc 1)] in
  exists summary,
    computePnL txs [] = Some summary
    /\ ((exists s, Obj.get "BTC" summary = Some s)
        <-> exists tx, In tx txs /\ Tx.asset tx = "BTC"%string).
Proof.
  intros txs. destruct (computePnL_total txs []) as [summary Hc].
  exists summary. split; [exact Hc|].
  exact (proj1 summary_lists_every_asset_named txs [] summary "BTC"%string Hc).
Defined.

(** C5 as the specification words it fails: an asset that was only ever
    sold has an entry although the list holds no BUY of it. *)
Lemma sold_only_asset_is_listed :
  let txs := [Tx.mk "2024-01-01" "BTC" "SELL" (Q2Qc 100) (Q2Qc 1)] in
  ~ (forall summary,
        computePnL txs [] = Some summary ->
        ((exists s, Obj.get "BTC" summary = Some s)
         <-> exists tx,
               In tx txs /\ Tx.asset tx = "BTC"%string /\ is_buy tx = true)).
Proof.
  intros txs Hclaim.
  destruct (computePnL_total txs []) as [summary Hc].
  destruct (Hclaim summary Hc) as [Hbuy _].
  destruct Hbuy as [tx [Hin [_ Hb]]].
  - apply (computePnL_entry _ _ _ "BTC"%string Hc).
    eexists. split; [left; reflexivity | reflexivity].
  - destruct Hin as [<-|[]]. vm_compute in Hb. discriminate.
Qed.

(** C7: [computePnL] returns a summary for every input, and an asset it
    lists that has no entry in the price map gets [currentPrice = 0],
    [value = 0] and [unrealised = - invested]. *)
Theorem missing_price_counts_as_zero :
  forall txs prices,
    exists summary,
      computePnL txs prices = Some summary
      /\ forall a s,
          Obj.get a summary = Some s ->
          Obj.get a prices = None ->
          Summary.currentPrice s = 0
          /\ Summary.value s = 0
          /\ Summary.unrealised s = - Summary.invested s.
Proof.
  intros txs prices.
  destruct (computePnL_total txs prices) as [summary Hc].
  exists summary. split; [exact Hc|].
  intros a s Hs Hp.
  destruct (computePnL_get _ _ _ _ _ Hc Hs) as [L [_ [-> _]]].
  unfold summarise. simpl. unfold get_or_zero. rewrite Hp.
  repeat split; qc_lra.
Qed.

Lemma missing_price_counts_as_zero_witness :
  exists summary s,
    computePnL [Tx.mk "2024-01-01" "ETH" "BUY" (Q2Qc 10) (Q2Qc 3)]
               [("BTC"%string, Q2Qc 150)]
    = Some summary
    /\ Obj.get "ETH" summary = Some s
    /\ Summary.currentPrice s = 0
    /\ Summary.value s = 0
    /\ Summary.unrealised s = - Summary.invested s.
Proof.
  destruct (missing_price_counts_as_zero
              [Tx.mk "2024-01-01" "ETH" "BUY" (Q2Qc 10) (Q2Qc 3)]
              [("BTC"%string, Q2Qc 150)]) as [summary [Hc Hall]].
  assert (Hs : exists s, Obj.get "ETH" summary = Some s).
  { apply (computePnL_entry _ _ _ "ETH"%string Hc).
    eexists. split; [left; reflexivity | reflexivity]. }
  destruct Hs as [s Hs]. exists summary, s.
  split; [exact Hc|]. split; [exact Hs|].
  apply (Hall "ETH"%string s Hs). reflexivity.
Defined.

(** ** What stays true of the open lots *)

Lemma filter_Permutation {A : Type} (f : A -> bool) (l l' : list A) :
  Permutation l l' -> Permutation (filter f l) (filter f l').
Proof.
  induction 1 as [|x l l' _ IH|x y l|l l' l'' _ IH1 _ IH2]; simpl.
  - constructor.
  - destruct (f x); [now constructor | assumption].
  - destruct (f x), (f y); try reflexivity. apply perm_swap.
  - now transitivity (filter f l').
Qed.

Lemma Math_min_le_l (x y : number) : Math_min x y <= x.
Proof.
  destruct (Math_min_cases x y) as [[H ->]|[H ->]]; qc_lra.
Qed.

Section LotInvariant.

(** A property of lots that a partly sold lot keeps. *)
Variable P : Lot.t -> Prop.
Hypothesis P_left :
  forall lot q, P lot -> epsilon < q -> q <= Lot.quantity lot ->
                P (Lot.mk q (Lot.price lot)).

Lemma sell_fifo_keeps (price : number) (queue : list Lot.t) :
  forall qty realised,
    Forall P queue -> Forall P (lots (sell_fifo price qty queue realised)).
Proof.
  induction queue as [|lot rest IH]; intros qty realised Hq; simpl.
  - constructor.
  - inversion Hq as [|? ? Hlot Hrest]; subst.
    destruct (Qcltb 0 qty) eqn:E0; [|exact Hq].
    cases_leb (Lot.quantity lot - Math_min (Lot.quantity lot) qty) epsilon.
    + now apply IH.
    + simpl. constructor; [|assumption].
      apply P_left; auto.
      pose proof (Math_min_le_l (Lot.quantity lot) qty).
      apply Qcltb_lt in E0.
      destruct (Math_min_cases (Lot.quantity lot) qty) as [[H1 Hm]|[H1 Hm]];
        rewrite Hm in *; qc_lra.
Qed.

Lemma asset_step_keeps (a : string) (st : list Lot.t * number) (tx : Tx.t) :
  (is_buy tx = true -> P (Lot.mk (Tx.quantity tx) (Tx.price tx))) ->
  Forall P (fst st) -> Forall P (fst (asset_step a st tx)).
Proof.
  intros Hbuy Hst. unfold asset_step.
  destruct (of_asset a tx); [|assumption].
  destruct (is_buy tx).
  - simpl. apply Forall_app. split; [assumption|]. constructor; auto.
  - destruct (is_sell tx); [|assumption].
    simpl. now apply sell_fifo_keeps.
Qed.

Lemma asset_fold_keeps (a : string) (txs : list Tx.t) :
  forall st,
    Forall (fun tx => is_buy tx = true ->
                      P (Lot.mk (Tx.quantity tx) (Tx.price tx))) txs ->
    Forall P (fst st) ->
    Forall P (fst (fold_left (asset_step a) txs st)).
Proof.
  induction txs as [|tx txs IH]; intros st Htxs Hst; simpl; [assumption|].
  inversion Htxs; subst. apply IH; [assumption|].
  now apply asset_step_keeps.
Qed.

End LotInvariant.

Lemma open_lots_are_amounts (a : string) (txs : list Tx.t) :
  Forall amounts txs -> Forall lot_amounts (fst (asset_replay a (sorted txs))).
Proof.
  intros H. unfold asset_replay. apply asset_fold_keeps.
  - intros lot q [_ Hp] Hq _. split; simpl; [|assumption].
    qc_lra.
  - eapply Permutation_Forall; [symmetry; apply sorted_Permutation|].
    eapply Forall_impl; [|exact H].
    intros tx [Hp Hq] _. split; assumption.
  - constructor.
Qed.

(** What the test [invested > 0] decides, for any input. *)
Lemma pnlPercent_of_summarise (prices : Obj.t number) (L : Ledger)
  (a : string) :
  let s := summarise prices L a in
  (Summary.pnlPercent s = None <-> Summary.invested s <= 0)
  /\ (0 < Summary.invested s ->
      Summary.pnlPercent s
      = Some (Summary.pnl s / Summary.invested s * hundred)).
Proof.
  unfold summarise. cbn [Summary.pnlPercent Summary.invested Summary.pnl].
  set (invested := sum_by (fun lot => Lot.quantity lot * Lot.price lot)
                          (get_lots a (lotsByAsset L))).
  cases_ltb 0 invested.
  - split; [split; [discriminate | intros H0; exfalso; qc_lra]|].
    reflexivity.
  - split; [split; auto | intros Hlt; exfalso; qc_lra].
Qed.

(** C6: when prices and quantities are amounts (not negative), [invested]
    is never negative, [pnlPercent] is [null] exactly when [invested] is 0,
    and otherwise it is [pnl / invested * 100]. *)
Theorem pnlPercent_is_null_iff_nothing_invested :
  forall txs prices summary a s,
    Forall amounts txs ->
    computePnL txs prices = Some summary ->
    Obj.get a summary = Some s ->
    0 <= Summary.invested s
    /\ (Summary.pnlPercent s = None <-> Summary.invested s = 0)
    /\ (Summary.invested s <> 0 ->
        Summary.pnlPercent s
        = Some (Summary.pnl s / Summary.invested s * hundred)).
Proof.
  intros txs prices summary a s Hamt Hc Hs.
  destruct (computePnL_get _ _ _ _ _ Hc Hs) as [L [_ [-> [Hview _]]]].
  assert (Hinv : 0 <= Summary.invested (summarise prices L a)).
  { rewrite summarise_invested, Hview. apply sum_by_nonneg.
    eapply Forall_impl; [|apply open_lots_are_amounts; exact Hamt].
    intros lot [Hq Hp]. qc_to_q. nra. }
  split; [exact Hinv|].
  destruct (pnlPercent_of_summarise prices L a) as [Hnull Hsome].
  cbv zeta in Hnull, Hsome.
  split.
  - rewrite Hnull. split; intros H; qc_lra.
  - intros Hne. apply Hsome.
    destruct (Qcle_lt_or_eq _ _ Hinv) as [Hlt|Heq]; [exact Hlt|].
    exfalso. apply Hne. symmetry. exact Heq.
Qed.

Lemma pnlPercent_is_null_iff_nothing_invested_witness :
  let txs := [Tx.mk "2024-01-01" "BTC" "BUY" (Q2Qc 100) (Q2Qc 2);
              Tx.mk "2024-01-15" "BTC" "SELL" (Q2Qc 200) (Q2Qc 1)] in
  Forall amounts txs
  /\ exists summary s,
      computePnL txs [("BTC"%string, Q2Qc 200)] = Some summary
      /\ Obj.get "BTC" summary = Some s
      /\ 0 <= Summary.invested s
      /\ (Summary.pnlPercent s = None <-> Summary.invested s = 0).
Proof.
  intros txs.
  assert (Hamt : Forall amounts txs)
    by (repeat constructor; unfold Qcle; simpl; unfold Qle; simpl; lia).
  split; [exact Hamt|].
  destruct (computePnL_total txs [("BTC"%string, Q2Qc 200)]) as [summary Hc].
  assert (Hs : exists s, Obj.get "BTC" summary = Some s).
  { apply (computePnL_entry _ _ _ "BTC"%string Hc).
    eexists. split; [left; reflexivity | reflexivity]. }
  destruct Hs as [s Hs]. exists summary, s.
  split; [exact Hc|]. split; [exact Hs|].
  destruct (pnlPercent_is_null_iff_nothing_invested
              txs _ summary "BTC"%string s Hamt Hc Hs) as [H1 [H2 _]].
  split; assumption.
Defined.

(** ** Remaining quantity *)

Lemma sell_fifo_nothing (price qty : number) (queue : list Lot.t)
  (realised : number) :
  qty <= 0 -> sell_fifo price qty queue realised = mkSell qty queue realised.
Proof.
  intros H. apply Qcltb_ge in H.
  destruct queue; simpl; [reflexivity|]. now rewrite H.
Qed.

(** A sale of [qty] units takes the open quantity [T] to [max 0 (T - qty)],
    less what is left of a lot that is dropped at [1e-8] or below. *)
Lemma sell_fifo_quantity (price : number) (queue : list Lot.t) :
  forall qty realised,
    Forall lot_quantity_ok queue -> 0 <= qty ->
    sum_by Lot.quantity (lots (sell_fifo price qty queue realised))
    <= Qcmax 0 (sum_by Lot.quantity queue - qty)
    /\ Qcmax 0 (sum_by Lot.quantity queue - qty)
       - sum_by Lot.quantity (lots (sell_fifo price qty queue realised))
       <= epsilon.
Proof.
  induction queue as [|lot rest IH]; intros qty realised Hok Hqty.
  - simpl. rewrite sum_by_nil.
    destruct (Qcmax_cases 0 (0 - qty)) as [[H ->]|[H ->]]; split; qc_lra.
  - inversion Hok as [|? ? Hlot Hrest]; subst. unfold lot_quantity_ok in Hlot.
    pose proof (sum_by_nonneg Lot.quantity rest Hrest) as Hsum.
    cases_ltb 0 qty.
    + simpl sell_fifo.
      assert (Hq : Qcltb 0 qty = true) by now apply Qcltb_lt.
      rewrite Hq. rewrite sum_by_cons.
      destruct (Math_min_cases (Lot.quantity lot) qty) as [[Hm ->]|[Hm ->]].
      * cases_leb (Lot.quantity lot - Lot.quantity lot) epsilon;
          [|exfalso; qc_lra].
        destruct (IH (qty - Lot.quantity lot)
                     (realised + Lot.quantity lot * (price - Lot.price lot))
                     Hrest) as [H1 H2]; [qc_lra|].
        replace (Lot.quantity lot + sum_by Lot.quantity rest - qty)
          with (sum_by Lot.quantity rest - (qty - Lot.quantity lot))
          by qc_lra.
        split; assumption.
      * cases_leb (Lot.quantity lot - qty) epsilon.
        -- replace (qty - qty) with 0 by qc_lra.
           rewrite sell_fifo_nothing by qc_lra. simpl lots.
           destruct (Qcmax_cases 0
                       (Lot.quantity lot + sum_by Lot.quantity rest - qty))
             as [[H ->]|[H ->]]; split; qc_lra.
        -- simpl lots. rewrite sum_by_cons. simpl Lot.quantity.
           destruct (Qcmax_cases 0
                       (Lot.quantity lot + sum_by Lot.quantity rest - qty))
             as [[H ->]|[H ->]]; split; qc_lra.
    + rewrite sell_fifo_nothing by assumption. simpl lots.
      rewrite sum_by_cons.
      destruct (Qcmax_cases 0
                  (Lot.quantity lot + sum_by Lot.quantity rest - qty))
        as [[H ->]|[H ->]]; split; qc_lra.
Qed.

Lemma lot_quantity_ok_left (lot : Lot.t) (q : number) :
  lot_quantity_ok lot -> epsilon < q -> q <= Lot.quantity lot ->
  lot_quantity_ok (Lot.mk q (Lot.price lot)).
Proof. unfold lot_quantity_ok. simpl. intros. qc_lra. Qed.




Lemma asset_step_balance (a : string) (st : list Lot.t * number)
  (bal : number) (tx : Tx.t) :
  0 <= Tx.quantity tx ->
  Forall lot_quantity_ok (fst st) ->
  sum_by Lot.quantity (fst st) <= bal ->
  sum_by Lot.quantity (fst (asset_step a st tx)) <= balance_step a bal tx
  /\ balance_step a bal tx - sum_by Lot.quantity (fst (asset_step a st tx))
     <= (bal - sum_by Lot.quantity (fst st))
        + (if sale_of a tx then epsilon else 0).
Proof.
  intros Hq Hok Hle. unfold asset_step, balance_step, sale_of.
  destruct (of_asset a tx); simpl andb; [|split; qc_lra].
  destruct (is_buy tx) eqn:Eb.
  - rewrite (buy_is_not_sell tx Eb). simpl fst.
    rewrite sum_by_app, sum_by_cons, sum_by_nil. simpl Lot.quantity.
    split; qc_lra.
  - destruct (is_sell tx); [|split; qc_lra].
    simpl fst.
    destruct (sell_fifo_quantity (Tx.price tx) (fst st) (Tx.quantity tx)
                (snd st) Hok Hq) as [H1 H2].
    destruct (Qcmax_cases 0 (sum_by Lot.quantity (fst st) - Tx.quantity tx))
      as [[H3 H4]|[H3 H4]]; rewrite H4 in *;
      destruct (Qcmax_cases 0 (bal - Tx.quantity tx)) as [[H5 ->]|[H5 ->]];
      split; qc_lra.
Qed.

Lemma inject_nat_S (n : nat) : inject_nat (S n) = 1 + inject_nat n.
Proof.
  apply Qc_is_canon. rewrite this_plus. unfold inject_nat, Q2Qc, this.
  rewrite !Qred_correct, Nat2Z.inj_succ, <- Z.add_1_l, inject_Z_plus.
  reflexivity.
Qed.

Lemma sell_count_cons (a : string) (tx : Tx.t) (txs : list Tx.t) :
  sell_count a (tx :: txs)
  = if sale_of a tx then S (sell_count a txs) else sell_count a txs.
Proof.
  unfold sell_count. simpl.
  destruct (sale_of a tx); reflexivity.
Qed.

Lemma asset_fold_balance (a : string) (txs : list Tx.t) :
  forall st bal,
    Forall (fun tx => 0 <= Tx.quantity tx) txs ->
    Forall lot_quantity_ok (fst st) ->
    sum_by Lot.quantity (fst st) <= bal ->
    sum_by Lot.quantity (fst (fold_left (asset_step a) txs st))
    <= fold_left (balance_step a) txs bal
    /\ fold_left (balance_step a) txs bal
       - sum_by Lot.quantity (fst (fold_left (asset_step a) txs st))
       <= (bal - sum_by Lot.quantity (fst st))
          + inject_nat (sell_count a txs) * epsilon.
Proof.
  induction txs as [|tx txs IH]; intros st bal Hq Hok Hle.
  - simpl. split; [assumption|].
    change (inject_nat (sell_count a [])) with (Q2Qc 0). qc_lra.
  - inversion Hq as [|? ? Hq1 Hq2]; subst. simpl fold_left.
    destruct (asset_step_balance a st bal tx Hq1 Hok Hle) as [H1 H2].
    assert (Hok' : Forall lot_quantity_ok (fst (asset_step a st tx))).
    { apply asset_step_keeps;
        [apply lot_quantity_ok_left | intros _; exact Hq1 | assumption]. }
    destruct (IH _ _ Hq2 Hok' H1) as [H3 H4].
    split; [assumption|].
    rewrite sell_count_cons.
    destruct (sale_of a tx); [rewrite inject_nat_S|]; qc_lra.
Qed.

Lemma bought_cons (a : string) (tx : Tx.t) (txs : list Tx.t) :
  bought a (tx :: txs)
  = (if (of_asset a tx && is_buy tx)%bool then Tx.quantity tx else 0)
    + bought a txs.
Proof.
  unfold bought. simpl.
  destruct (of_asset a tx && is_buy tx)%bool; [apply sum_by_cons|qc_lra].
Qed.

Lemma sold_cons (a : string) (tx : Tx.t) (txs : list Tx.t) :
  sold a (tx :: txs)
  = (if sale_of a tx then Tx.quantity tx else 0) + sold a txs.
Proof.
  unfold sold. simpl.
  destruct (sale_of a tx); [apply sum_by_cons|qc_lra].
Qed.

Lemma covered_balance (a : string) (txs : list Tx.t) :
  forall bal,
    covered a bal txs ->
    fold_left (balance_step a) txs bal = bal + bought a txs - sold a txs.
Proof.
  induction txs as [|tx txs IH]; intros bal Hc.
  - simpl. unfold bought, sold. simpl. rewrite sum_by_nil. qc_lra.
  - destruct Hc as [Hnow Hrest]. simpl fold_left.
    rewrite (IH _ Hrest), bought_cons, sold_cons.
    unfold balance_step, sale_of in *.
    destruct (of_asset a tx); simpl andb; [|qc_lra].
    destruct (is_buy tx) eqn:Eb.
    + rewrite (buy_is_not_sell tx Eb). qc_lra.
    + destruct (is_sell tx); [|qc_lra].
      specialize (Hnow eq_refl).
      destruct (Qcmax_cases 0 (bal - Tx.quantity tx)) as [[H ->]|[H ->]];
        qc_lra.
Qed.

Lemma bought_sorted (a : string) (txs : list Tx.t) :
  bought a (sorted txs) = bought a txs.
Proof.
  apply sum_by_Permutation, filter_Permutation, sorted_Permutation.
Qed.

Lemma sold_sorted (a : string) (txs : list Tx.t) :
  sold a (sorted txs) = sold a txs.
Proof.
  apply sum_by_Permutation, filter_Permutation, sorted_Permutation.
Qed.

Lemma sell_count_sorted (a : string) (txs : list Tx.t) :
  sell_count a (sorted txs) = sell_count a txs.
Proof.
  apply Permutation_length, filter_Permutation, sorted_Permutation.
Qed.

(** Over exact rationals, that is, rounding apart: with quantities that are
    not negative, the quantity left in an asset's open lots follows the
    balance kept in date order, where a BUY adds its quantity and a SELL
    takes its quantity off but not below zero: it is at most that balance
    and falls short of it by at most 1e-8 per SELL of the asset (what is
    left of a lot at 1e-8 or below is dropped).  When no SELL asks for more
    than the balance holds, the balance is bought minus sold.  On doubles
    the lots and the balance round differently and the two bounds hold up
    to rounding only. *)
Theorem remaining_quantity_follows_running_balance :
  forall txs prices summary a s,
    Forall (fun tx => 0 <= Tx.quantity tx) txs ->
    computePnL txs prices = Some summary ->
    Obj.get a summary = Some s ->
    0 <= Summary.quantity s
    /\ Summary.quantity s <= running_balance a (sorted txs)
    /\ running_balance a (sorted txs) - Summary.quantity s
       <= inject_nat (sell_count a txs) * epsilon
    /\ (covered a 0 (sorted txs) ->
        running_balance a (sorted txs) = bought a txs - sold a txs).
Proof.
  intros txs prices summary a s Hq Hc Hs.
  destruct (computePnL_get _ _ _ _ _ Hc Hs) as [L [_ [-> [Hview _]]]].
  rewrite summarise_quantity, Hview. unfold asset_replay, running_balance.
  assert (Hq' : Forall (fun tx => 0 <= Tx.quantity tx) (sorted txs)).
  { eapply Permutation_Forall; [symmetry; apply sorted_Permutation|exact Hq]. }
  assert (Hok : Forall lot_quantity_ok
                       (fst (fold_left (asset_step a) (sorted txs) ([], 0)))).
  { apply asset_fold_keeps; [apply lot_quantity_ok_left | | constructor].
    eapply Forall_impl; [|exact Hq']. intros tx H _. exact H. }
  destruct (asset_fold_balance a (sorted txs) ([], 0) 0 Hq') as [H1 H2].
  { constructor. }
  { simpl. rewrite sum_by_nil. qc_lra. }
  simpl fst in H2. rewrite sum_by_nil, sell_count_sorted in H2.
  split; [now apply sum_by_nonneg|].
  split; [exact H1|].
  split; [qc_lra|].
  intros Hcov. rewrite (covered_balance _ _ _ Hcov), bought_sorted, sold_sorted.
  qc_lra.
Qed.

Lemma remaining_quantity_follows_running_balance_witness :
  let txs := [Tx.mk "2024-01-01" "BTC" "BUY" (Q2Qc 100) (Q2Qc 2);
              Tx.mk "2024-01-15" "BTC" "SELL" (Q2Qc 200) (Q2Qc 1)] in
  Forall (fun tx => 0 <= Tx.quantity tx) txs
  /\ exists summary s,
      computePnL txs [] = Some summary
      /\ Obj.get "BTC" summary = Some s
      /\ 0 <= Summary.quantity s
      /\ Summary.quantity s <= running_balance "BTC" (sorted txs)
      /\ running_balance "BTC" (sorted txs) - Summary.quantity s
         <= inject_nat (sell_count "BTC" txs) * epsilon.
Proof.
  intros txs.
  assert (Hq : Forall (fun tx => 0 <= Tx.quantity tx) txs)
    by (repeat constructor; unfold Qcle; simpl; unfold Qle; simpl; lia).
  split; [exact Hq|].
  destruct (computePnL_total txs []) as [summary Hc].
  assert (Hs : exists s, Obj.get "BTC" summary = Some s).
  { apply (computePnL_entry _ _ _ "BTC"%string Hc).
    eexists. split; [left; reflexivity | reflexivity]. }
  destruct Hs as [s Hs]. exists summary, s.
  split; [exact Hc|]. split; [exact Hs|].
  destruct (remaining_quantity_follows_running_balance
              txs [] summary "BTC"%string s Hq Hc Hs) as [H1 [H2 [H3 _]]].
  auto.
Defined.


(** The other way the remaining quantity leaves bought minus sold: what a
    sale leaves of a lot is dropped when it is 1e-8 or less. *)
Example residue_of_a_lot_is_dropped :
  let txs := [Tx.mk "2024-01-01" "BTC" "BUY" (Q2Qc 100) (Q2Qc 1);
              Tx.mk "2024-02-01" "BTC" "SELL" (Q2Qc 100)
                    (Q2Qc (999999999 # 1000000000))] in
  fst (asset_replay "BTC" (sorted txs)) = []
  /\ bought "BTC" txs - sold "BTC" txs = Q2Qc (1 # 1000000000).
Proof.
  split; [vm_compute; reflexivity | apply Qc_is_canon; vm_compute; reflexivity].
Qed.

(** ** computeTotals *)

Lemma get_of_In {V : Type} (o : Obj.t V) (k : string) (v : V) :
  Obj.wf o -> In (k, v) o -> Obj.get k o = Some v.
Proof.
  unfold Obj.wf, Obj.keys.
  induction o as [|[k' v'] o IH]; simpl; intros Hnd Hin; [contradiction|].
  inversion Hnd as [|? ? Hnin Hnd']; subst.
  destruct Hin as [[= -> ->]|Hin].
  - now rewrite String.eqb_refl.
  - destruct (String.eqb k k') eqn:E; [|now apply IH].
    apply String.eqb_eq in E. subst k'. exfalso. apply Hnin.
    change k with (fst (k, v)). now apply in_map.
Qed.

Lemma fold_add_summary (vals : list Summary.t) :
  forall acc,
    fold_left add_summary vals acc
    = Totals.mk (Totals.invested acc + sum_by Summary.invested vals)
                (Totals.value acc + sum_by Summary.value vals)
                (Totals.realised acc + sum_by Summary.realised vals)
                (Totals.unrealised acc + sum_by Summary.unrealised vals)
                (Totals.pnl acc + sum_by Summary.pnl vals).
Proof.
  induction vals as [|s vals IH]; intros acc; simpl.
  - rewrite !sum_by_nil. destruct acc; simpl. f_equal; qc_lra.
  - rewrite IH, !sum_by_cons. unfold add_summary. simpl. f_equal; qc_lra.
Qed.

Lemma fold_lookup_values (summary l : Obj.t Summary.t) :
  (forall k s, In (k, s) l -> Obj.get k summary = Some s) ->
  forall acc,
    fold_left
      (fun acc asset =>
         match Obj.get asset summary with
         | Some s => add_summary acc s
         | None => acc
         end) (Obj.keys l) acc
    = fold_left add_summary (Obj.values l) acc.
Proof.
  induction l as [|[k s] l IH]; intros Hget acc; simpl; [reflexivity|].
  rewrite (Hget k s) by now left.
  apply IH. intros k' s' Hin. apply Hget. now right.
Qed.

Lemma computeTotals_sums (summary : Obj.t Summary.t) :
  Obj.wf summary ->
  computeTotals summary
  = Totals.mk (sum_by Summary.invested (Obj.values summary))
              (sum_by Summary.value (Obj.values summary))
              (sum_by Summary.realised (Obj.values summary))
              (sum_by Summary.unrealised (Obj.values summary))
              (sum_by Summary.pnl (Obj.values summary)).
Proof.
  intros Hwf. unfold computeTotals.
  rewrite fold_lookup_values by (intros k s; now apply get_of_In).
  rewrite fold_add_summary. simpl. f_equal; qc_lra.
Qed.

(** ** computeTotals in any arithmetic *)

Lemma keys_exact_entries (summary : Obj.t Summary.t) :
  Obj.keys (exact_entries summary) = Obj.keys summary.
Proof. unfold Obj.keys, exact_entries. rewrite map_map. reflexivity. Qed.

Lemma get_exact_entries (summary : Obj.t Summary.t) (k : string) :
  Obj.get k (exact_entries summary)
  = option_map exact_summary (Obj.get k summary).
Proof.
  unfold exact_entries.
  induction summary as [|[k' v] o IH]; simpl; [reflexivity|].
  destruct (String.eqb k k'); [reflexivity | exact IH].
Qed.

(** The totals of the exact model are those of [+] on the rationals. *)
Lemma computeTotals_exact (summary : Obj.t Summary.t) :
  Any.computeTotalsWith 0 Qcplus (exact_entries summary)
  = exact_totals (computeTotals summary).
Proof.
  unfold Any.computeTotalsWith, computeTotals.
  rewrite keys_exact_entries.
  change (Any.zeros 0) with (exact_totals zero_totals).
  generalize zero_totals.
  induction (Obj.keys summary) as [|k ks IH]; intros acc;
    cbn [fold_left]; [reflexivity|].
  rewrite get_exact_entries.
  destruct (Obj.get k summary) as [s|]; cbn [option_map]; [|apply IH].
  change (Any.add_entry Qcplus (exact_totals acc) (exact_summary s))
    with (exact_totals (add_summary acc s)).
  apply IH.
Qed.

Section TotalsInAnyArithmetic.

Variable N : Type.
Variable zero : N.
Variable add : N -> N -> N.




End TotalsInAnyArithmetic.




(** ** Months *)

Lemma leb_compare (x y : string) :
  String.leb x y = true <-> String.compare x y <> Gt.
Proof.
  unfold String.leb. destruct (String.compare x y); split; congruence.
Qed.

Lemma leb_refl (x : string) : String.leb x x = true.
Proof.
  apply leb_compare.
  assert (H : String.compare x x = Eq) by now apply String_as_OT.cmp_eq.
  rewrite H. discriminate.
Qed.

Lemma leb_trans (x y z : string) :
  String.leb x y = true -> String.leb y z = true -> String.leb x z = true.
Proof.
  rewrite !leb_compare. intros Hxy Hyz.
  destruct (String.compare x y) eqn:Exy; try congruence.
  - apply String_as_OT.cmp_eq in Exy. now subst.
  - destruct (String.compare y z) eqn:Eyz; try congruence.
    + apply String_as_OT.cmp_eq in Eyz. subst. now rewrite Exy.
    + apply String_as_OT.cmp_lt in Exy, Eyz.
      pose proof (String_as_OT.lt_trans _ _ _ Exy Eyz) as H.
      apply String_as_OT.cmp_lt in H. unfold String_as_OT.cmp in H.
      now rewrite H.
Qed.

Lemma Set_from_fold (xs : list string) :
  forall acc,
    NoDup acc ->
    NoDup (fold_left Set_add xs acc)
    /\ forall x, In x (fold_left Set_add xs acc) <-> In x acc \/ In x xs.
Proof.
  induction xs as [|y xs IH]; intros acc Hnd; simpl.
  - split; [assumption|]. intros x. tauto.
  - assert (Hadd : NoDup (Set_add acc y)
                   /\ forall x, In x (Set_add acc y) <-> In x acc \/ y = x).
    { unfold Set_add. destruct (existsb (String.eqb y) acc) eqn:E.
      - split; [assumption|]. intros x. split; [tauto|].
        intros [H|<-]; [assumption|].
        apply existsb_exists in E. destruct E as [z [Hz Hyz]].
        apply String.eqb_eq in Hyz. now subst.
      - split.
        + apply NoDup_app; [assumption | repeat constructor; auto |].
          intros x Hx [<-|[]].
          assert (Hex : existsb (String.eqb y) acc = true).
          { apply existsb_exists. exists y. split; [assumption|].
            apply String.eqb_refl. }
          congruence.
        + intros x. rewrite in_app_iff. simpl. tauto. }
    destruct Hadd as [Hnd' Hin'].
    destruct (IH _ Hnd') as [H1 H2]. split; [assumption|].
    intros x. rewrite H2, Hin'. tauto.
Qed.

Lemma months_of_Permutation (txs : list Tx.t) :
  Permutation (months_of txs) (Set_from (map monthKey txs)).
Proof. apply Array_sort_Permutation. Qed.

Lemma months_of_NoDup (txs : list Tx.t) : NoDup (months_of txs).
Proof.
  eapply Permutation_NoDup; [symmetry; apply months_of_Permutation|].
  apply Set_from_fold. constructor.
Qed.

Lemma months_of_In (txs : list Tx.t) (m : string) :
  In m (months_of txs) <-> exists tx, In tx txs /\ monthKey tx = m.
Proof.
  assert (H : In m (months_of txs) <-> In m (map monthKey txs)).
  { split; intros Hin.
    - apply (Permutation_in _ (months_of_Permutation txs)) in Hin.
      apply (Set_from_fold (map monthKey txs) [] (NoDup_nil _)) in Hin.
      destruct Hin as [[]|Hin]. assumption.
    - apply (Permutation_in _ (Permutation_sym (months_of_Permutation txs))).
      apply (Set_from_fold (map monthKey txs) [] (NoDup_nil _)). now right. }
  rewrite H, in_map_iff. split; intros [tx [H1 H2]]; exists tx; auto.
Qed.

Lemma months_of_sorted (txs : list Tx.t) :
  StronglySorted (fun x y => String.leb x y = true) (months_of txs).
Proof.
  apply (Array_sort_sorted string_compare (fun _ => True)).
  - apply leb_trans.
  - intros x y _ _. unfold string_compare. rewrite leb_compare.
    destruct (String.compare x y); [discriminate | discriminate | lia].
  - intros x y _ _. unfold string_compare. rewrite leb_compare.
    pose proof (String_as_OT.cmp_antisym y x) as Ha.
    unfold String_as_OT.cmp in Ha. rewrite Ha.
    destruct (String.compare x y); simpl; [lia | lia | discriminate].
  - apply Forall_forall. auto.
Qed.

Lemma sorted_NoDup_strict (l : list string) :
  StronglySorted (fun x y => String.leb x y = true) l -> NoDup l ->
  StronglySorted string_lt l.
Proof.
  induction 1 as [|x l Hs IH Hx]; intros Hnd; [constructor|].
  inversion Hnd as [|? ? Hnin Hnd']; subst.
  constructor; [now apply IH|].
  rewrite Forall_forall in *. intros y Hy.
  specialize (Hx y Hy). apply leb_compare in Hx. unfold string_lt.
  destruct (String.compare x y) eqn:E; [|reflexivity|congruence].
  apply String_as_OT.cmp_eq in E. subst. contradiction.
Qed.

Lemma months_of_ascending (txs : list Tx.t) :
  StronglySorted string_lt (months_of txs).
Proof.
  apply sorted_NoDup_strict; [apply months_of_sorted | apply months_of_NoDup].
Qed.

(** ** The monthly history *)

Lemma history_from_rows (txs : list Tx.t) (prices : Obj.t number)
  (months : list string) :
  forall prevValue prevInvested,
    exists history,
      history_from txs prices months prevValue prevInvested = Some history
      /\ map Entry.month history = months
      /\ Forall (row_of txs prices) history
      /\ returns_chain prevValue prevInvested history.
Proof.
  induction months as [|m months IH]; intros prevValue prevInvested.
  - exists []. simpl. repeat split. constructor.
  - simpl history_from.
    destruct (computePnL_total
                (filter (fun tx => String.leb (monthKey tx) m) txs) prices)
      as [summary Hc].
    rewrite Hc.
    set (totals := computeTotals summary).
    destruct (IH (Totals.value totals + Totals.realised totals)
                 (Totals.invested totals)) as [history [Hh [Hm [Hrows Hret]]]].
    rewrite Hh. eexists. split; [reflexivity|].
    split; [cbn [map Entry.month]; now rewrite Hm|].
    split.
    + constructor; [|assumption].
      exists summary. cbn [Entry.month Entry.invested Entry.value
                           Entry.realised Entry.unrealised Entry.pnl].
      repeat split. exact Hc.
    + cbn [returns_chain Entry.return_ Entry.value Entry.realised
           Entry.invested].
      split; [|exact Hret].
      unfold period_return.
      cbn [Entry.value Entry.realised Entry.invested].
      destruct (Qcltb 0 prevValue); [reflexivity | apply Qcmult_0_l].
Qed.

Lemma first_return_is_zero (e : Entry.t) (history : list Entry.t) :
  returns_chain 0 0 (e :: history) -> Entry.return_ e = 0.
Proof. intros [H _]. rewrite H. reflexivity. Qed.

(** C8: [computeMonthlyHistory] returns one row per distinct month key of
    the transactions, in ascending order; each row holds the totals of the
    transactions up to its month, and its [return] is
    [((value + realised) - previous - (invested - previousInvested))
     / previous * 100] when the previous row's [value + realised] is above
    zero and [0] otherwise, so [0] in the first row; no transactions give no
    rows. *)
Theorem monthly_history_rows_and_returns :
  (forall txs prices,
      exists history,
        computeMonthlyHistory txs prices = Some history
        /\ map Entry.month history = months_of txs
        /\ NoDup (months_of txs)
        /\ StronglySorted string_lt (months_of txs)
        /\ (forall m, In m (months_of txs)
                      <-> exists tx, In tx txs /\ monthKey tx = m)
        /\ Forall (row_of txs prices) history
        /\ returns_chain 0 0 history
        /\ (forall e rest, history = e :: rest -> Entry.return_ e = 0))
  /\ (forall prices, computeMonthlyHistory [] prices = Some []).
Proof.
  split; [|reflexivity].
  intros txs prices. unfold computeMonthlyHistory.
  destruct (history_from_rows txs prices (months_of txs) 0 0)
    as [history [Hh [Hm [Hrows Hret]]]].
  exists history.
  split; [exact Hh|]. split; [exact Hm|].
  split; [apply months_of_NoDup|].
  split; [apply months_of_ascending|].
  split; [intros m; apply months_of_In|].
  split; [exact Hrows|]. split; [exact Hret|].
  intros e rest ->. now apply (first_return_is_zero e rest).
Qed.

Lemma monthly_history_rows_and_returns_witness :
  let txs := [Tx.mk "2024-02-01" "BTC" "SELL" (Q2Qc 150) (Q2Qc 1);
              Tx.mk "2024-01-01" "BTC" "BUY" (Q2Qc 100) (Q2Qc 1)] in
  exists history,
    computeMonthlyHistory txs [("BTC"%string, Q2Qc 150)] = Some history
    /\ map Entry.month history = ["2024-01"%string; "2024-02"%string]
    /\ returns_chain 0 0 history.
Proof.
  intros txs.
  destruct (proj1 monthly_history_rows_and_returns
              txs [("BTC"%string, Q2Qc 150)])
    as [history [H1 [H2 [_ [_ [_ [_ [H3 _]]]]]]]].
  exists history. split; [exact H1|]. split; [|exact H3].
  rewrite H2. reflexivity.
Defined.

Lemma sorted_last_is_max (l : list string) (x : string) :
  StronglySorted (fun a b => String.leb a b = true) (l ++ [x]) ->
  forall y, In y (l ++ [x]) -> String.leb y x = true.
Proof.
  induction l as [|z l IH]; simpl; intros Hs y Hy.
  - destruct Hy as [<-|[]]. apply leb_refl.
  - inversion Hs as [|? ? Hs' Hz]; subst.
    destruct Hy as [<-|Hy]; [|now apply IH].
    rewrite Forall_forall in Hz. apply Hz, in_or_app. right. now left.
Qed.

Lemma filter_all {A : Type} (f : A -> bool) (l : list A) :
  (forall x, In x l -> f x = true) -> filter f l = l.
Proof.
  induction l as [|x l IH]; intros H; simpl; [reflexivity|].
  rewrite (H x) by now left. f_equal. apply IH. intros y Hy. apply H. now right.
Qed.

(** C10: for a list with at least one transaction, the last row of the
    monthly history has the [invested], [value], [realised], [unrealised]
    and [pnl] of [computeTotals (computePnL transactions prices)]: the
    filter of the latest month keeps every transaction. *)
Theorem last_history_row_is_portfolio_totals :
  forall txs prices,
    txs <> [] ->
    exists history earlier e summary,
      computeMonthlyHistory txs prices = Some history
      /\ history = earlier ++ [e]
      /\ filter (fun tx => String.leb (monthKey tx) (Entry.month e)) txs = txs
      /\ computePnL txs prices = Some summary
      /\ Entry.invested e = Totals.invested (computeTotals summary)
      /\ Entry.value e = Totals.value (computeTotals summary)
      /\ Entry.realised e = Totals.realised (computeTotals summary)
      /\ Entry.unrealised e = Totals.unrealised (computeTotals summary)
      /\ Entry.pnl e = Totals.pnl (computeTotals summary).
Proof.
  intros txs prices Hne. unfold computeMonthlyHistory.
  destruct (history_from_rows txs prices (months_of txs) 0 0)
    as [history [Hh [Hm [Hrows _]]]].
  assert (Hhne : history <> []).
  { intros ->. simpl in Hm. destruct txs as [|tx txs]; [congruence|].
    assert (Hin : In (monthKey tx) (months_of (tx :: txs))).
    { apply months_of_In. exists tx. split; [now left|reflexivity]. }
    rewrite <- Hm in Hin. exact Hin. }
  destruct (exists_last Hhne) as [earlier [e ->]].
  assert (Hall : filter (fun tx => String.leb (monthKey tx) (Entry.month e)) txs
                 = txs).
  { apply filter_all. intros tx Htx.
    apply (sorted_last_is_max (map Entry.month earlier)).
    - replace (map Entry.month earlier ++ [Entry.month e])
        with (months_of txs); [apply months_of_sorted|].
      rewrite <- Hm, map_app. reflexivity.
    - replace (map Entry.month earlier ++ [Entry.month e])
        with (months_of txs) by (rewrite <- Hm, map_app; reflexivity).
      apply months_of_In. exists tx. split; [assumption|reflexivity]. }
  apply Forall_app in Hrows. destruct Hrows as [_ Hrow].
  inversion Hrow as [|? ? [summary [Hc Hfields]] _]; subst.
  rewrite Hall in Hc.
  exists (earlier ++ [e]), earlier, e, summary.
  split; [exact Hh|]. split; [reflexivity|]. split; [exact Hall|].
  split; [exact Hc|]. exact Hfields.
Qed.

Lemma last_history_row_is_portfolio_totals_witness :
  let txs := [Tx.mk "2024-02-01" "BTC" "SELL" (Q2Qc 150) (Q2Qc 1);
              Tx.mk "2024-01-01" "BTC" "BUY" (Q2Qc 100) (Q2Qc 1)] in
  txs <> []
  /\ exists history earlier e summary,
      computeMonthlyHistory txs [("BTC"%string, Q2Qc 150)] = Some history
      /\ history = earlier ++ [e]
      /\ computePnL txs [("BTC"%string, Q2Qc 150)] = Some summary
      /\ Entry.realised e = Totals.realised (computeTotals summary).
Proof.
  intros txs.
  assert (Hne : txs <> []) by discriminate.
  split; [exact Hne|].
  destruct (last_history_row_is_portfolio_totals
              txs [("BTC"%string, Q2Qc 150)] Hne)
    as [history [earlier [e [summary [H1 [H2 [_ [H3 [_ [_ [H4 _]]]]]]]]]]].
  exists history, earlier, e, summary. auto.
Defined.

(** * Further properties of the code *)

(** ** The keys of the summary *)

Lemma existsb_eqb_In (x : string) (s : list string) :
  existsb (String.eqb x) s = true <-> In x s.
Proof.
  rewrite existsb_exists. split.
  - intros [y [Hy E]]. apply String.eqb_eq in E. now subst.
  - intros H. exists x. split; [assumption | apply String.eqb_refl].
Qed.

Lemma Set_add_present (s : list string) (x : string) :
  In x s -> Set_add s x = s.
Proof.
  intros H. unfold Set_add. apply existsb_eqb_In in H. now rewrite H.
Qed.

Lemma Set_add_In (s : list string) (x : string) : In x (Set_add s x).
Proof.
  unfold Set_add. destruct (existsb (String.eqb x) s) eqn:E.
  - now apply existsb_eqb_In.
  - apply in_or_app. right. now left.
Qed.

Lemma keys_set_add {V : Type} (k : string) (v : V) (o : Obj.t V) :
  Obj.keys (Obj.set k v o) = Set_add (Obj.keys o) k.
Proof.
  induction o as [|[k' v'] o IH]; [reflexivity|].
  unfold Set_add in *. simpl.
  destruct (String.eqb k k') eqn:E; simpl; [reflexivity|].
  rewrite IH. now destruct (existsb (String.eqb k) (Obj.keys o)).
Qed.

Lemma keys_init_lots_add (k : string) (o : Obj.t (list Lot.t)) :
  Obj.keys (init_lots k o) = Set_add (Obj.keys o) k.
Proof.
  unfold init_lots. destruct (Obj.get k o) eqn:E.
  - symmetry. apply Set_add_present. apply get_In_keys. eauto.
  - apply keys_set_add.
Qed.

Lemma replay_tx_keys_add (L L' : Ledger) (tx : Tx.t) :
  replay_tx L tx = Some L' ->
  Obj.keys (lotsByAsset L')
  = Set_add (Obj.keys (lotsByAsset L)) (Tx.asset tx).
Proof.
  unfold replay_tx.
  destruct (String.eqb (Tx.type tx) "BUY").
  - intros [= <-]. simpl. rewrite keys_set_add, keys_init_lots_add.
    apply Set_add_present, Set_add_In.
  - destruct (String.eqb (Tx.type tx) "SELL").
    + rewrite sell_while_fifo by lia. intros [= <-]. simpl.
      rewrite keys_set_add, keys_init_lots_add.
      apply Set_add_present, Set_add_In.
    + intros [= <-]. simpl. apply keys_init_lots_add.
Qed.

Lemma replay_keys_add (txs : list Tx.t) :
  forall L L', replay L txs = Some L' ->
    Obj.keys (lotsByAsset L')
    = fold_left Set_add (map Tx.asset txs) (Obj.keys (lotsByAsset L)).
Proof.
  induction txs as [|tx txs IH]; intros L L'; simpl.
  - now intros [= <-].
  - destruct (replay_tx L tx) as [L1|] eqn:E; [|discriminate].
    intros H. rewrite (IH _ _ H), (replay_tx_keys_add _ _ _ E). reflexivity.
Qed.

Lemma keys_fold_set {V : Type} (g : string -> V) (ks : list string) :
  forall acc : Obj.t V,
    Obj.keys (fold_left (fun r k => Obj.set k (g k) r) ks acc)
    = fold_left Set_add ks (Obj.keys acc).
Proof.
  induction ks as [|k ks IH]; intros acc; simpl; [reflexivity|].
  now rewrite IH, keys_set_add.
Qed.

Lemma Set_from_shift (l : list string) :
  forall acc, NoDup (acc ++ l) -> fold_left Set_add l acc = acc ++ l.
Proof.
  induction l as [|x l IH]; intros acc Hnd; simpl.
  - now rewrite app_nil_r.
  - assert (Hx : ~ In x acc).
    { intros Hin. apply NoDup_remove_2 in Hnd. apply Hnd.
      apply in_or_app. now left. }
    unfold Set_add at 2.
    destruct (existsb (String.eqb x) acc) eqn:E.
    + apply existsb_eqb_In in E. contradiction.
    + rewrite IH; rewrite <- app_assoc; [reflexivity | exact Hnd].
Qed.

Lemma Set_from_NoDup (l : list string) : NoDup (Set_from l).
Proof. apply Set_from_fold. constructor. Qed.

Lemma Set_from_distinct (l : list string) : NoDup l -> Set_from l = l.
Proof. intros H. unfold Set_from. now rewrite Set_from_shift. Qed.

Lemma computePnL_keys (txs : list Tx.t) (prices : Obj.t number)
  (summary : Obj.t Summary.t) :
  computePnL txs prices = Some summary ->
  Obj.keys summary = Set_from (map Tx.asset (sorted txs)).
Proof.
  unfold computePnL.
  destruct (replay empty_ledger (sorted txs)) as [L|] eqn:E; [|discriminate].
  intros [= <-]. unfold build_summary. rewrite keys_fold_set.
  apply replay_keys_add in E. simpl in E. rewrite E.
  apply Set_from_distinct, Set_from_NoDup.
Qed.

Lemma computePnL_wf (txs : list Tx.t) (prices : Obj.t number)
  (summary : Obj.t Summary.t) :
  computePnL txs prices = Some summary -> Obj.wf summary.
Proof.
  intros H. unfold Obj.wf. rewrite (computePnL_keys _ _ _ H).
  apply Set_from_NoDup.
Qed.

Lemma filter_none {A : Type} (f : A -> bool) (l : list A) :
  (forall x, In x l -> f x = false) -> filter f l = [].
Proof.
  induction l as [|x l IH]; intros H; simpl; [reflexivity|].
  rewrite (H x) by now left. apply IH. intros y Hy. apply H. now right.
Qed.

(** Without integer-like keys [Object.keys] is the insertion order. *)
Lemma Object_keys_insertion_order {V : Type} (o : Obj.t V) :
  (forall k, In k (Obj.keys o) -> integer_like k = false) ->
  Object_keys o = Obj.keys o.
Proof.
  intros H. unfold Object_keys.
  rewrite (filter_none integer_like) by exact H.
  simpl. apply filter_all. intros k Hk. now rewrite (H k Hk).
Qed.

(** X1: when no asset symbol is an integer-like key, [Object.keys] of the
    summary lists the assets of the transactions, each once, in the order
    in which the assets first occur in date order. *)
Theorem summary_keys_in_order_of_first_trade :
  forall txs prices summary,
    (forall tx, In tx txs -> integer_like (Tx.asset tx) = false) ->
    computePnL txs prices = Some summary ->
    Object_keys summary = Set_from (map Tx.asset (sorted txs))
    /\ NoDup (Object_keys summary).
Proof.
  intros txs prices summary Hkeys H.
  assert (Hplain : Object_keys summary = Obj.keys summary).
  { apply Object_keys_insertion_order. intros k Hk.
    apply get_In_keys, (computePnL_entry _ _ _ _ H) in Hk.
    destruct Hk as [tx [Hin <-]]. now apply Hkeys. }
  rewrite Hplain. split.
  - now apply (computePnL_keys txs prices).
  - now apply (computePnL_wf txs prices).
Qed.

Lemma summary_keys_in_order_of_first_trade_witness :
  let txs := [Tx.mk "2024-03-01" "BTC" "BUY" (Q2Qc 100) (Q2Qc 1);
              Tx.mk "2024-01-01" "ETH" "BUY" (Q2Qc 10) (Q2Qc 3);
              Tx.mk "2024-02-01" "BTC" "SELL" (Q2Qc 100) (Q2Qc 1)] in
  (forall tx, In tx txs -> integer_like (Tx.asset tx) = false)
  /\ exists summary,
      computePnL txs [] = Some summary
      /\ Object_keys summary = ["ETH"; "BTC"]%string.
Proof.
  intros txs.
  assert (Hkeys : forall tx, In tx txs -> integer_like (Tx.asset tx) = false).
  { intros tx [<-|[<-|[<-|[]]]]; reflexivity. }
  split; [exact Hkeys|].
  destruct (computePnL_total txs []) as [summary Hc].
  exists summary. split; [exact Hc|].
  rewrite (proj1 (summary_keys_in_order_of_first_trade _ _ _ Hkeys Hc)).
  reflexivity.
Defined.

(** Integer-like asset symbols come first in [Object.keys], whatever the
    dates. *)
Example integer_like_keys_come_first :
  Object_keys [("BTC"%string, 1%nat); ("42"%string, 2%nat);
               ("7"%string, 3%nat); ("ETH"%string, 4%nat)]
  = ["7"; "42"; "BTC"; "ETH"]%string.
Proof. reflexivity. Qed.

(** ** Assets do not interfere *)

Lemma filter_filter_comm {A : Type} (f g : A -> bool) (l : list A) :
  filter f (filter g l) = filter g (filter f l).
Proof.
  induction l as [|x l IH]; [reflexivity|]. simpl.
  destruct (f x) eqn:Ef, (g x) eqn:Eg; simpl; rewrite ?Ef, ?Eg, IH;
    reflexivity.
Qed.

Lemma StronglySorted_filter_keeps {A : Type} (R : A -> A -> Prop)
  (f : A -> bool) (l : list A) :
  StronglySorted R l -> StronglySorted R (filter f l).
Proof.
  induction 1 as [|x l Hs IH Hx]; simpl; [constructor|].
  destruct (f x); [|assumption].
  constructor; [assumption|].
  rewrite Forall_forall in *. intros y Hy. apply Hx.
  now apply filter_In in Hy.
Qed.

Lemma Forall_filter_keeps {A : Type} (P : A -> Prop) (f : A -> bool)
  (l : list A) :
  Forall P l -> Forall P (filter f l).
Proof.
  rewrite !Forall_forall. intros H x Hx. apply H. now apply filter_In in Hx.
Qed.

(** Sorting by date and selecting transactions can be done in either
    order. *)
Lemma sorted_filter (f : Tx.t -> bool) (txs : list Tx.t) :
  Forall valid_date txs ->
  sorted (filter f txs) = filter f (sorted txs).
Proof.
  intros Hv.
  apply (sorted_by_classes time_of).
  - apply sorted_ascending. now apply Forall_filter_keeps.
  - apply StronglySorted_filter_keeps. now apply sorted_ascending.
  - intros t. change (with_key time_of t) with (at_time t).
    rewrite sorted_stable by now apply Forall_filter_keeps.
    rewrite (filter_filter_comm (at_time t) f (sorted txs)).
    rewrite sorted_stable by assumption.
    apply filter_filter_comm.
Qed.

Lemma asset_fold_filter (a : string) (txs : list Tx.t) :
  forall st,
    fold_left (asset_step a) (filter (of_asset a) txs) st
    = fold_left (asset_step a) txs st.
Proof.
  induction txs as [|tx txs IH]; intros st; [reflexivity|]. simpl.
  destruct (of_asset a tx) eqn:E; simpl; [apply IH|].
  rewrite IH. unfold asset_step at 3. now rewrite E.
Qed.

Lemma summarise_view (prices : Obj.t number) (L L' : Ledger) (a : string) :
  asset_view a L = asset_view a L' ->
  summarise prices L a = summarise prices L' a.
Proof.
  unfold asset_view. intros [= Hl Hr]. unfold summarise. now rewrite Hl, Hr.
Qed.

(** X4: the summary of an asset depends on the transactions of that asset
    alone: leaving out every transaction of the other assets leaves its
    entry as it is (for valid dates). *)
Theorem summary_of_asset_ignores_other_assets :
  forall txs prices summary summary' a,
    Forall valid_date txs ->
    computePnL txs prices = Some summary ->
    computePnL (filter (of_asset a) txs) prices = Some summary' ->
    Obj.get a summary' = Obj.get a summary.
Proof.
  intros txs prices summary summary' a Hv Hc Hc'.
  destruct (Obj.get a summary) as [s|] eqn:Es.
  - destruct (computePnL_get _ _ _ _ _ Hc Es)
      as [L [_ [-> [Hview [tx [Hin Ha]]]]]].
    assert (Hs' : exists s', Obj.get a summary' = Some s').
    { apply (computePnL_entry _ _ _ a Hc'). exists tx. split; [|exact Ha].
      apply filter_In. split.
      - now apply (Permutation_in _ (sorted_Permutation txs)).
      - unfold of_asset. rewrite Ha. apply String.eqb_refl. }
    destruct Hs' as [s' Es']. rewrite Es'. f_equal.
    destruct (computePnL_get _ _ _ _ _ Hc' Es') as [L' [_ [-> [Hview' _]]]].
    apply summarise_view. rewrite Hview, Hview'.
    unfold asset_replay. rewrite sorted_filter by assumption.
    apply asset_fold_filter.
  - destruct (Obj.get a summary') as [s'|] eqn:Es'; [|reflexivity].
    exfalso.
    assert (H : exists tx, In tx txs /\ Tx.asset tx = a).
    { assert (H' : exists tx, In tx (filter (of_asset a) txs) /\ Tx.asset tx = a)
        by (apply (computePnL_entry _ _ _ a Hc'); eauto).
      destruct H' as [tx [Hin Ha]]. apply filter_In in Hin.
      exists tx. tauto. }
    apply (computePnL_entry _ _ _ a Hc) in H. destruct H as [s Hs].
    congruence.
Qed.

Lemma summary_of_asset_ignores_other_assets_witness :
  let txs := [Tx.mk "2024-01-15" "BTC" "SELL" (Q2Qc 200) (Q2Qc 1);
              Tx.mk "2024-01-01" "ETH" "BUY" (Q2Qc 10) (Q2Qc 3);
              Tx.mk "2024-01-01" "BTC" "BUY" (Q2Qc 100) (Q2Qc 2)] in
  Forall valid_date txs
  /\ exists summary summary',
      computePnL txs [] = Some summary
      /\ computePnL (filter (of_asset "BTC") txs) [] = Some summary'
      /\ Obj.get "BTC" summary' = Obj.get "BTC" summary.
Proof.
  intros txs.
  assert (Hv : Forall valid_date txs)
    by (repeat constructor; unfold valid_date; vm_compute; discriminate).
  split; [exact Hv|].
  destruct (computePnL_total txs []) as [summary Hc].
  destruct (computePnL_total (filter (of_asset "BTC") txs) [])
    as [summary' Hc'].
  exists summary, summary'. split; [exact Hc|]. split; [exact Hc'|].
  exact (summary_of_asset_ignores_other_assets
           txs [] summary summary' "BTC"%string Hv Hc Hc').
Defined.

(** ** An asset that was never sold *)

Lemma sum_by_map {A B : Type} (f : B -> number) (g : A -> B) (l : list A) :
  sum_by f (map g l) = sum_by (fun x => f (g x)) l.
Proof.
  induction l as [|x l IH]; [reflexivity|].
  simpl map. now rewrite !sum_by_cons, IH.
Qed.

Lemma asset_fold_buys (a : string) (txs : list Tx.t) :
  forall queue realised,
    (forall tx, In tx txs -> sale_of a tx = false) ->
    fold_left (asset_step a) txs (queue, realised)
    = (queue ++ map lot_of (filter (buy_of a) txs), realised).
Proof.
  induction txs as [|tx txs IH]; intros queue realised Hno; simpl.
  - now rewrite app_nil_r.
  - assert (Htx : sale_of a tx = false) by (apply Hno; now left).
    assert (Hrest : forall tx', In tx' txs -> sale_of a tx' = false)
      by (intros tx' H; apply Hno; now right).
    unfold asset_step at 2. unfold buy_of, sale_of in *. simpl fst. simpl snd.
    destruct (of_asset a tx); simpl in *; [|now apply IH].
    destruct (is_buy tx).
    + rewrite IH by assumption. now rewrite <- app_assoc.
    + rewrite Htx. now apply IH.
Qed.

(** X5: for an asset of which nothing was sold, the summary holds the
    purchases unchanged: [quantity] is the quantity bought, [invested] is
    what the BUYs paid, both summed in date order as well as in input
    order, and [realised] is 0. *)
Theorem unsold_asset_holds_its_purchases :
  forall txs prices summary a s,
    (forall tx, In tx txs -> sale_of a tx = false) ->
    computePnL txs prices = Some summary ->
    Obj.get a summary = Some s ->
    Summary.quantity s = bought a txs
    /\ Summary.invested s = cost_of_buys a txs
    /\ Summary.realised s = 0
    /\ Summary.quantity s = bought a (sorted txs)
    /\ Summary.invested s = cost_of_buys a (sorted txs).
Proof.
  intros txs prices summary a s Hno Hc Hs.
  destruct (computePnL_get _ _ _ _ _ Hc Hs) as [L [_ [-> [Hview _]]]].
  rewrite summarise_quantity, summarise_invested, summarise_realised, Hview.
  unfold asset_replay. rewrite asset_fold_buys.
  - simpl. rewrite !sum_by_map. repeat split.
    + unfold bought.
      apply (sum_by_Permutation Tx.quantity), filter_Permutation,
        sorted_Permutation.
    + unfold cost_of_buys.
      apply (sum_by_Permutation (fun tx => Tx.quantity tx * Tx.price tx)),
        filter_Permutation, sorted_Permutation.
  - intros tx Hin. apply Hno.
    now apply (Permutation_in _ (sorted_Permutation txs)).
Qed.

Lemma unsold_asset_holds_its_purchases_witness :
  let txs := [Tx.mk "2024-02-01" "ETH" "BUY" (Q2Qc 20) (Q2Qc 1);
              Tx.mk "2024-01-01" "ETH" "BUY" (Q2Qc 10) (Q2Qc 3);
              Tx.mk "2024-01-15" "BTC" "SELL" (Q2Qc 200) (Q2Qc 1)] in
  (forall tx, In tx txs -> sale_of "ETH" tx = false)
  /\ exists summary s,
      computePnL txs [] = Some summary
      /\ Obj.get "ETH" summary = Some s
      /\ Summary.quantity s = bought "ETH" txs
      /\ Summary.invested s = cost_of_buys "ETH" txs
      /\ Summary.realised s = 0.
Proof.
  intros txs.
  assert (Hno : forall tx, In tx txs -> sale_of "ETH" tx = false).
  { intros tx [<-|[<-|[<-|[]]]]; reflexivity. }
  split; [exact Hno|].
  destruct (computePnL_total txs []) as [summary Hc].
  assert (Hs : exists s, Obj.get "ETH" summary = Some s).
  { apply (computePnL_entry _ _ _ "ETH"%string Hc).
    eexists. split; [left; reflexivity | reflexivity]. }
  destruct Hs as [s Hs]. exists summary, s.
  split; [exact Hc|]. split; [exact Hs|].
  destruct (unsold_asset_holds_its_purchases txs [] summary "ETH"%string s
              Hno Hc Hs) as [H1 [H2 [H3 _]]].
  auto.
Defined.

(** ** Remaining quantity, on doubles as on rationals *)





(** ** The lots of one asset *)

Section OwnLotInvariant.

Variable P : Lot.t -> Prop.
Hypothesis P_left :
  forall lot q, P lot -> epsilon < q -> q <= Lot.quantity lot ->
                P (Lot.mk q (Lot.price lot)).

(** As [asset_fold_keeps], asking [P] of the BUYs of the asset only. *)
Lemma asset_fold_keeps_own (a : string) (txs : list Tx.t) :
  forall st,
    (forall tx, In tx txs -> buy_of a tx = true -> P (lot_of tx)) ->
    Forall P (fst st) ->
    Forall P (fst (fold_left (asset_step a) txs st)).
Proof.
  induction txs as [|tx txs IH]; intros st Hbuy Hst; simpl; [assumption|].
  apply IH; [intros tx' H; apply Hbuy; now right|].
  destruct (of_asset a tx) eqn:E.
  - apply (asset_step_keeps P P_left); [|assumption].
    intros Hb. apply (Hbuy tx); [now left|].
    unfold buy_of. now rewrite E, Hb.
  - unfold asset_step. now rewrite E.
Qed.

End OwnLotInvariant.

(** ** Dust *)

Lemma sum_above_epsilon (queue : list Lot.t) :
  Forall (fun lot => epsilon < Lot.quantity lot) queue ->
  queue = [] \/ epsilon < sum_by Lot.quantity queue.
Proof.
  induction 1 as [|lot queue Hlot _ IH]; [now left|]. right.
  rewrite sum_by_cons. destruct IH as [->|IH].
  - rewrite sum_by_nil. qc_lra.
  - qc_lra.
Qed.

(** X7: when every BUY of an asset is for more than 1e-8 units, the
    quantity reported for the asset is either exactly 0 or more than 1e-8:
    a sale never leaves a remainder of 1e-8 or less. *)
Theorem reported_quantity_is_never_dust :
  forall txs prices summary a s,
    (forall tx, In tx txs -> buy_of a tx = true ->
                epsilon < Tx.quantity tx) ->
    computePnL txs prices = Some summary ->
    Obj.get a summary = Some s ->
    Summary.quantity s = 0 \/ epsilon < Summary.quantity s.
Proof.
  intros txs prices summary a s Hbuy Hc Hs.
  destruct (computePnL_get _ _ _ _ _ Hc Hs) as [L [_ [-> [Hview _]]]].
  rewrite summarise_quantity, Hview.
  destruct (sum_above_epsilon (fst (asset_replay a (sorted txs))))
    as [-> | H]; [|now left|now right].
  unfold asset_replay. apply asset_fold_keeps_own.
  - intros lot q _ Hq _. exact Hq.
  - intros tx Hin. apply Hbuy.
    now apply (Permutation_in _ (sorted_Permutation txs)).
  - constructor.
Qed.

Lemma reported_quantity_is_never_dust_witness :
  let txs := [Tx.mk "2024-01-01" "BTC" "BUY" (Q2Qc 100) (Q2Qc 1);
              Tx.mk "2024-02-01" "BTC" "SELL" (Q2Qc 100)
                    (Q2Qc (999999999 # 1000000000))] in
  exists summary s,
    computePnL txs [] = Some summary
    /\ Obj.get "BTC" summary = Some s
    /\ (Summary.quantity s = 0 \/ epsilon < Summary.quantity s).
Proof.
  intros txs.
  destruct (computePnL_total txs []) as [summary Hc].
  assert (Hs : exists s, Obj.get "BTC" summary = Some s).
  { apply (computePnL_entry _ _ _ "BTC"%string Hc).
    eexists. split; [left; reflexivity | reflexivity]. }
  destruct Hs as [s Hs]. exists summary, s.
  split; [exact Hc|]. split; [exact Hs|].
  apply (reported_quantity_is_never_dust txs [] summary "BTC"%string s);
    try assumption.
  intros tx [<-|[<-|[]]]; intros Hb; try discriminate Hb.
  vm_compute. reflexivity.
Defined.

(** ** First in, first out *)

Lemma sell_fifo_suffix (price : number) (queue : list Lot.t) :
  forall qty realised,
    (exists k, lots (sell_fifo price qty queue realised) = skipn k queue)
    \/ (exists k lot left,
           nth_error queue k = Some lot
           /\ epsilon < left /\ left < Lot.quantity lot
           /\ lots (sell_fifo price qty queue realised)
              = Lot.mk left (Lot.price lot) :: skipn (S k) queue).
Proof.
  induction queue as [|lot rest IH]; intros qty realised.
  - left. exists 0%nat. reflexivity.
  - simpl sell_fifo. cases_ltb 0 qty.
    + cases_leb (Lot.quantity lot - Math_min (Lot.quantity lot) qty) epsilon.
      * destruct (IH (qty - Math_min (Lot.quantity lot) qty)
                     (realised + Math_min (Lot.quantity lot) qty
                                 * (price - Lot.price lot)))
          as [[k Hk]|[k [l [left [Hn [H1 [H2 Hk]]]]]]].
        -- left. exists (S k). exact Hk.
        -- right. exists (S k), l, left. auto.
      * right. exists 0%nat, lot,
          (Lot.quantity lot - Math_min (Lot.quantity lot) qty).
        split; [reflexivity|]. split; [assumption|]. split; [|reflexivity].
        destruct (Math_min_cases (Lot.quantity lot) qty)
          as [[H Hm]|[H Hm]]; rewrite Hm in *; qc_lra.
    + left. exists 0%nat. reflexivity.
Qed.

(** X8: a SELL consumes the queue from its head: what it leaves is the
    queue without its first [k] lots, or those later lots behind what is
    left (more than 1e-8) of lot [k]; no lot is touched while an older one
    is still open, and the lots keep their order and their prices. *)
Theorem sell_consumes_oldest_lots_first :
  forall price qty queue realised,
    exists st',
      sell_while (List.length queue) price (mkSell qty queue realised)
      = Some st'
      /\ ((exists k, lots st' = skipn k queue)
          \/ (exists k lot left,
                 nth_error queue k = Some lot
                 /\ epsilon < left /\ left < Lot.quantity lot
                 /\ lots st' = Lot.mk left (Lot.price lot)
                                 :: skipn (S k) queue)).
Proof.
  intros price qty queue realised.
  rewrite sell_while_fifo by lia.
  eexists. split; [reflexivity|]. apply sell_fifo_suffix.
Qed.

(** ** Selling above cost *)

Lemma sell_fifo_gain (price : number) (queue : list Lot.t) :
  forall qty realised,
    Forall (fun lot => 0 <= Lot.quantity lot /\ Lot.price lot <= price)
           queue ->
    realised <= realisedAcc (sell_fifo price qty queue realised).
Proof.
  induction queue as [|lot rest IH]; intros qty realised Hq; simpl.
  - qc_lra.
  - inversion Hq as [|? ? [Hlq Hlp] Hrest]; subst.
    cases_ltb 0 qty; [|simpl; qc_lra].
    assert (Hterm : 0 <= Math_min (Lot.quantity lot) qty
                         * (price - Lot.price lot)).
    { destruct (Math_min_cases (Lot.quantity lot) qty) as [[_ ->]|[_ ->]];
        qc_to_q; nra. }
    cases_leb (Lot.quantity lot - Math_min (Lot.quantity lot) qty) epsilon.
    + eapply Qcle_trans; [|apply IH; assumption]. qc_lra.
    + simpl. qc_lra.
Qed.

Section SoldAboveCost.

Variable a : string.
Variable cheap : number -> Prop.

Local Abbreviation cheap_lot :=
  (fun lot : Lot.t => 0 <= Lot.quantity lot /\ cheap (Lot.price lot)).

Lemma asset_fold_gain (txs : list Tx.t) :
  forall st,
    (forall tx, In tx txs -> buy_of a tx = true -> cheap_lot (lot_of tx)) ->
    (forall tx p, In tx txs -> sale_of a tx = true -> cheap p ->
                  p <= Tx.price tx) ->
    Forall cheap_lot (fst st) ->
    0 <= snd st ->
    0 <= snd (fold_left (asset_step a) txs st).
Proof.
  induction txs as [|tx txs IH]; intros st Hbuy Hsell Hst Hr; simpl;
    [assumption|].
  assert (Hleft : forall lot q, cheap_lot lot -> epsilon < q ->
                                q <= Lot.quantity lot ->
                                cheap_lot (Lot.mk q (Lot.price lot))).
  { intros lot q [_ Hp] Hq _. split; simpl; [qc_lra | exact Hp]. }
  apply IH.
  - intros tx' H. apply Hbuy. now right.
  - intros tx' p H. apply Hsell. now right.
  - apply (asset_fold_keeps_own cheap_lot Hleft a [tx]); [|assumption].
    intros tx' [<-|[]]. apply Hbuy. now left.
  - unfold asset_step. destruct (of_asset a tx) eqn:Ea; [|assumption].
    destruct (is_buy tx); [assumption|].
    destruct (is_sell tx) eqn:Es; [|assumption].
    simpl. eapply Qcle_trans; [exact Hr|].
    apply sell_fifo_gain.
    eapply Forall_impl; [|exact Hst].
    intros lot [Hq Hp]. split; [assumption|].
    apply Hsell; [now left | | assumption].
    unfold sale_of. now rewrite Ea, Es.
Qed.

End SoldAboveCost.

(** X9: when no SELL of an asset is priced below any BUY of it (and the
    quantities bought are not negative), the realised PnL of the asset is
    not negative. *)
Theorem selling_above_cost_realises_no_loss :
  forall txs prices summary a s,
    (forall tx, In tx txs -> buy_of a tx = true -> 0 <= Tx.quantity tx) ->
    (forall b t, In b txs -> In t txs ->
                 buy_of a b = true -> sale_of a t = true ->
                 Tx.price b <= Tx.price t) ->
    computePnL txs prices = Some summary ->
    Obj.get a summary = Some s ->
    0 <= Summary.realised s.
Proof.
  intros txs prices summary a s Hq Hprice Hc Hs.
  destruct (computePnL_get _ _ _ _ _ Hc Hs) as [L [_ [-> [Hview _]]]].
  rewrite summarise_realised, Hview. unfold asset_replay.
  assert (Hin : forall tx, In tx (sorted txs) -> In tx txs)
    by (intros tx; apply (Permutation_in _ (sorted_Permutation txs))).
  apply (asset_fold_gain a
           (fun p => forall t, In t txs -> sale_of a t = true ->
                               p <= Tx.price t)).
  - intros tx H Hb. split; [apply Hq; auto|].
    intros t Ht Hst. apply (Hprice tx t); auto.
  - intros tx p H Hst Hp. apply Hp; auto.
  - constructor.
  - simpl. qc_lra.
Qed.

Lemma selling_above_cost_realises_no_loss_witness :
  let txs := [Tx.mk "2024-01-01" "ETH" "BUY" (Q2Qc 10) (Q2Qc 3);
              Tx.mk "2024-02-01" "ETH" "BUY" (Q2Qc 20) (Q2Qc 1);
              Tx.mk "2024-03-01" "ETH" "SELL" (Q2Qc 30) (Q2Qc 2)] in
  exists summary s,
    computePnL txs [] = Some summary
    /\ Obj.get "ETH" summary = Some s
    /\ 0 <= Summary.realised s.
Proof.
  intros txs.
  destruct (computePnL_total txs []) as [summary Hc].
  assert (Hs : exists s, Obj.get "ETH" summary = Some s).
  { apply (computePnL_entry _ _ _ "ETH"%string Hc).
    eexists. split; [left; reflexivity | reflexivity]. }
  destruct Hs as [s Hs]. exists summary, s.
  split; [exact Hc|]. split; [exact Hs|].
  apply (selling_above_cost_realises_no_loss txs [] summary "ETH"%string s);
    try assumption.
  - intros tx [<-|[<-|[<-|[]]]]; intros Hb; try discriminate Hb;
      unfold Qcle; simpl; unfold Qle; simpl; lia.
  - intros b t [<-|[<-|[<-|[]]]] [<-|[<-|[<-|[]]]] Hb Ht;
      try discriminate Hb; try discriminate Ht;
      unfold Qcle; simpl; unfold Qle; simpl; lia.
Defined.

(** ** fetchPrices *)

Lemma get_fold_opt {V : Type} (g : string -> option V)
  (step : Obj.t V -> string -> Obj.t V) :
  (forall r k, step r k = match g k with
                          | Some v => Obj.set k v r
                          | None => r
                          end) ->
  forall (ks : list string) (acc : Obj.t V) (a : string),
    Obj.get a (fold_left step ks acc)
    = if in_dec string_dec a ks
      then match g a with Some v => Some v | None => Obj.get a acc end
      else Obj.get a acc.
Proof.
  intros Hstep ks. induction ks as [|k ks IH]; intros acc a; simpl;
    [reflexivity|].
  rewrite IH, Hstep.
  destruct (string_dec k a) as [->|Hne].
  - destruct (g a) as [v|] eqn:Eg.
    + rewrite get_set_same. now destruct (in_dec string_dec a ks).
    + now destruct (in_dec string_dec a ks).
  - assert (Hget : Obj.get a (match g k with
                              | Some v => Obj.set k v acc
                              | None => acc
                              end) = Obj.get a acc).
    { destruct (g k); [|reflexivity]. apply get_set_other. congruence. }
    rewrite Hget. now destruct (in_dec string_dec a ks).
Qed.

Lemma take_quote_quoted (data : Obj.t (Obj.t number)) (prices : Obj.t number)
  (asset : string) :
  take_quote data prices asset
  = match quoted data asset with
    | Some eur => Obj.set asset eur prices
    | None => prices
    end.
Proof.
  unfold take_quote, quoted, Boolean_string.
  destruct (Obj.get asset priceIds) as [i|]; [|reflexivity].
  destruct (String.eqb i ""); simpl; [reflexivity|].
  destruct (Obj.get i data) as [quote|]; reflexivity.
Qed.

Lemma get_manual_applied (manual acc : Obj.t number) (a : string) :
  Obj.get a (fold_left (take_manual manual) (Obj.keys manual) acc)
  = match Obj.get a manual with
    | Some v => Some v
    | None => Obj.get a acc
    end.
Proof.
  rewrite (get_fold_opt (fun k => Obj.get k manual)) by reflexivity.
  destruct (in_dec string_dec a (Obj.keys manual)) as [Hin|Hnin].
  - reflexivity.
  - apply get_None_keys in Hnin. now rewrite Hnin.
Qed.

Lemma quoted_known (data : Obj.t (Obj.t number)) (assets : list string)
  (a : string) (p : number) :
  In a assets -> quoted data a = Some p -> known_ids assets <> [].
Proof.
  intros Hin Hq Hnil. unfold quoted in Hq.
  destruct (Obj.get a priceIds) as [i|] eqn:Ei; [|discriminate].
  destruct (String.eqb i "") eqn:E; [discriminate|].
  assert (H : In (Some i) (known_ids assets)).
  { unfold known_ids. apply filter_In. split.
    - rewrite <- Ei.
      now apply (in_map (fun asset => Obj.get asset priceIds)).
    - simpl. now rewrite E. }
  rewrite Hnil in H. exact H.
Qed.

(** The price map [fetchPrices] returns, key by key. *)
Lemma fetchPrices_get (fetch : string -> option (Obj.t (Obj.t number)))
  (assets : list string) (manual : Obj.t number) (a : string) :
  Obj.get a (snd (fetchPrices fetch assets manual))
  = match Obj.get a manual with
    | Some v => Some v
    | None =>
        if in_dec string_dec a assets then
          match fetch (price_url (known_ids assets)) with
          | Some data => quoted data a
          | None => None
          end
        else None
    end.
Proof.
  unfold fetchPrices. cbn [snd]. rewrite get_manual_applied.
  destruct (Obj.get a manual); [reflexivity|].
  destruct (0 <? List.length (known_ids assets))%nat eqn:El.
  - destruct (fetch (price_url (known_ids assets))) as [data|]; cbn [snd].
    + rewrite (get_fold_opt (quoted data))
        by (intros; apply take_quote_quoted).
      destruct (in_dec string_dec a assets); [|reflexivity].
      now destruct (quoted data a).
    + now destruct (in_dec string_dec a assets).
  - cbn [snd]. apply Nat.ltb_ge in El.
    destruct (in_dec string_dec a assets) as [Hin|]; [|reflexivity].
    destruct (fetch (price_url (known_ids assets))) as [data|];
      [|reflexivity].
    destruct (quoted data a) as [p|] eqn:Eq; [|reflexivity].
    exfalso. apply (quoted_known data assets a p Hin Eq).
    destruct (known_ids assets); [reflexivity | simpl in El; lia].
Qed.

(** X10: a manual override always wins: an asset with a manual price gets
    that price, whatever the request returns and whether or not the asset
    was asked for. *)
Theorem manual_price_overrides_fetched_price :
  forall fetch assets manual a v,
    Obj.get a manual = Some v ->
    Obj.get a (snd (fetchPrices fetch assets manual)) = Some v.
Proof.
  intros fetch assets manual a v H. now rewrite fetchPrices_get, H.
Qed.

Lemma manual_price_overrides_fetched_price_witness :
  Obj.get "BTC"
    (snd (fetchPrices
            (fun _ => Some [("bitcoin"%string, [("eur"%string, Q2Qc 60000)])])
            ["BTC"%string] [("BTC"%string, Q2Qc 1)]))
  = Some (Q2Qc 1).
Proof.
  apply manual_price_overrides_fetched_price. reflexivity.
Defined.

(** X11: when the request fails, or when none of the assets has a
    CoinGecko id, the price map holds the manual prices and nothing
    else. *)
Theorem failed_request_leaves_manual_prices :
  forall fetch assets manual,
    fetch (price_url (known_ids assets)) = None \/ known_ids assets = [] ->
    forall a,
      Obj.get a (snd (fetchPrices fetch assets manual)) = Obj.get a manual.
Proof.
  intros fetch assets manual H a. rewrite fetchPrices_get.
  destruct (Obj.get a manual); [reflexivity|].
  destruct (in_dec string_dec a assets) as [Hin|]; [|reflexivity].
  destruct (fetch (price_url (known_ids assets))) as [data|] eqn:Ef;
    [|reflexivity].
  destruct H as [H|H]; [discriminate|].
  destruct (quoted data a) as [p|] eqn:Eq; [|reflexivity].
  exfalso. exact (quoted_known data assets a p Hin Eq H).
Qed.

Lemma failed_request_leaves_manual_prices_witness :
  Obj.get "RTX" (snd (fetchPrices (fun _ => None) ["BTC"; "RTX"]%string
                                  [("RTX"%string, Q2Qc 1)]))
  = Some (Q2Qc 1)
  /\ Obj.get "BTC" (snd (fetchPrices (fun _ => None) ["BTC"; "RTX"]%string
                                     [("RTX"%string, Q2Qc 1)]))
     = None.
Proof.
  split.
  - rewrite failed_request_leaves_manual_prices; [reflexivity|].
    left. reflexivity.
  - rewrite failed_request_leaves_manual_prices; [reflexivity|].
    left. reflexivity.
Defined.

(** X12: without a manual price, an asset gets a price only if it was
    asked for, and then the [eur] price the response holds under the
    asset's CoinGecko id, if it holds one. *)
Theorem fetched_price_is_the_quoted_price :
  forall fetch assets manual data a,
    Obj.get a manual = None ->
    fetch (price_url (known_ids assets)) = Some data ->
    Obj.get a (snd (fetchPrices fetch assets manual))
    = if in_dec string_dec a assets then quoted data a else None.
Proof.
  intros fetch assets manual data a Hm Hf.
  now rewrite fetchPrices_get, Hm, Hf.
Qed.

Lemma fetched_price_is_the_quoted_price_witness :
  Obj.get "ETH"
    (snd (fetchPrices
            (fun _ => Some [("ethereum"%string, [("eur"%string, Q2Qc 3000)])])
            ["BTC"; "ETH"]%string [("RTX"%string, Q2Qc 1)]))
  = Some (Q2Qc 3000).
Proof.
  rewrite (fetched_price_is_the_quoted_price _ _ _
             [("ethereum"%string, [("eur"%string, Q2Qc 3000)])]);
    reflexivity.
Defined.

Lemma known_ids_nil (assets : list string) :
  known_ids assets = []
  <-> forall a, In a assets -> Obj.get a priceIds = None.
Proof.
  unfold known_ids. induction assets as [|x assets IH]; cbn [map filter].
  - split; [intros _ a [] | reflexivity].
  - destruct (Obj.get x priceIds) as [i|] eqn:Ei.
    + assert (Hi : Boolean_string (Some i) = true).
      { simpl in Ei.
        repeat match type of Ei with
               | (if ?c then _ else _) = _ => destruct c
               end; try discriminate; injection Ei as <-; reflexivity. }
      rewrite Hi. split; [discriminate|].
      intros H. specialize (H x (or_introl eq_refl)). congruence.
    + cbn [Boolean_string]. rewrite IH. split.
      * intros H a [<-|Hin]; auto.
      * intros H a Hin. apply H. now right.
Qed.

(** X13: [fetchPrices] sends at most one request, and none at all exactly
    when no asset of the list has a CoinGecko id. *)
Theorem request_is_sent_only_for_known_assets :
  forall fetch assets manual,
    (List.length (fst (fetchPrices fetch assets manual)) <= 1)%nat
    /\ (fst (fetchPrices fetch assets manual) = []
        <-> forall a, In a assets -> Obj.get a priceIds = None).
Proof.
  intros fetch assets manual. rewrite <- known_ids_nil.
  unfold fetchPrices. cbn [fst].
  destruct (known_ids assets) as [|i ids] eqn:E; simpl.
  - split; [lia | tauto].
  - destruct (fetch (price_url (i :: ids))); simpl;
      (split; [lia | split; discriminate]).
Qed.

Lemma request_is_sent_only_for_known_assets_witness :
  fst (fetchPrices (fun _ => None) ["RTX"; "LBRETT"]%string
                   [("RTX"%string, Q2Qc 1)]) = [].
Proof.
  apply (proj2 (request_is_sent_only_for_known_assets _ _ _)).
  intros a [<-|[<-|[]]]; reflexivity.
Defined.

(** ** Adding and deleting transactions *)

Lemma filter_indexed_keeps_all {A : Type} (n : nat) (l : list A) :
  forall j, (n < j)%nat ->
    filter_indexed (fun _ i => negb (i =? n)%nat) j l = l.
Proof.
  induction l as [|x l IH]; intros j Hj; simpl; [reflexivity|].
  assert (E : (j =? n)%nat = false) by (apply Nat.eqb_neq; lia).
  rewrite E. simpl. f_equal. apply IH. lia.
Qed.

Lemma filter_indexed_removes {A : Type} (n : nat) (l : list A) :
  forall j, (j <= n)%nat ->
    filter_indexed (fun _ i => negb (i =? n)%nat) j l
    = firstn (n - j) l ++ skipn (S (n - j)) l.
Proof.
  induction l as [|x l IH]; intros j Hj; simpl.
  - now rewrite firstn_nil.
  - destruct (j =? n)%nat eqn:E; simpl.
    + apply Nat.eqb_eq in E. subst j. rewrite Nat.sub_diag. simpl.
      apply filter_indexed_keeps_all. lia.
    + apply Nat.eqb_neq in E. rewrite IH by lia.
      replace (n - j)%nat with (S (n - S j)) by lia. reflexivity.
Qed.

(** X14: deleting at [index] removes exactly the transaction at that
    position and keeps the others in order; an index past the end deletes
    nothing, and deleting the position a transaction was just added at
    gives the list back. *)
Theorem delete_removes_the_indexed_transaction :
  (forall prev index,
      handleDeleteTransaction prev index
      = firstn index prev ++ skipn (S index) prev)
  /\ (forall prev index,
         (List.length prev <= index)%nat ->
         handleDeleteTransaction prev index = prev)
  /\ (forall prev tx,
         handleDeleteTransaction (handleAddTransaction prev tx)
                                 (List.length prev) = prev).
Proof.
  assert (H : forall prev index,
             handleDeleteTransaction prev index
             = firstn index prev ++ skipn (S index) prev).
  { intros prev index. unfold handleDeleteTransaction.
    rewrite filter_indexed_removes by lia. now rewrite Nat.sub_0_r. }
  split; [exact H|]. split.
  - intros prev index Hlen. rewrite H.
    rewrite firstn_all2 by assumption.
    rewrite skipn_all2 by lia. apply app_nil_r.
  - intros prev tx. rewrite H. unfold handleAddTransaction.
    rewrite firstn_app, Nat.sub_diag, firstn_all, firstn_O, app_nil_r.
    rewrite skipn_all2 by (rewrite length_app; simpl; lia).
    apply app_nil_r.
Qed.

Lemma delete_removes_the_indexed_transaction_witness :
  let a := Tx.mk "2024-01-01" "BTC" "BUY" (Q2Qc 100) (Q2Qc 1) in
  let b := Tx.mk "2024-02-01" "BTC" "SELL" (Q2Qc 150) (Q2Qc 1) in
  (List.length [a] <= 3)%nat
  /\ handleDeleteTransaction [a] 3 = [a]
  /\ handleDeleteTransaction (handleAddTransaction [a] b) 1 = [a].
Proof.
  intros a b.
  assert (Hlen : (List.length [a] <= 3)%nat) by (simpl; lia).
  split; [exact Hlen|]. split.
  - exact (proj1 (proj2 delete_removes_the_indexed_transaction) [a] 3%nat Hlen).
  - exact (proj2 (proj2 delete_removes_the_indexed_transaction) [a] b).
Defined.

(** ** The assets the page asks prices for *)

Lemma Set_from_In (l : list string) (x : string) :
  In x (Set_from l) <-> In x l.
Proof.
  unfold Set_from.
  rewrite (proj2 (Set_from_fold l [] (NoDup_nil _)) x). simpl. tauto.
Qed.

(** X15: the page asks [fetchPrices] for exactly the assets the summary
    lists, each once. *)
Theorem prices_are_fetched_for_the_summarised_assets :
  forall txs prices summary,
    computePnL txs prices = Some summary ->
    NoDup (assets_of txs)
    /\ Permutation (assets_of txs) (Obj.keys summary).
Proof.
  intros txs prices summary Hc.
  assert (Hnd : NoDup (assets_of txs)) by apply Set_from_NoDup.
  split; [exact Hnd|].
  apply NoDup_Permutation; [exact Hnd | now apply (computePnL_wf txs prices)|].
  intros a. rewrite (computePnL_keys _ _ _ Hc).
  unfold assets_of. rewrite !Set_from_In, !in_map_iff.
  split; intros [tx [Ha Hin]]; exists tx; (split; [exact Ha|]).
  - now apply (Permutation_in _ (Permutation_sym (sorted_Permutation txs))).
  - now apply (Permutation_in _ (sorted_Permutation txs)).
Qed.

Lemma prices_are_fetched_for_the_summarised_assets_witness :
  let txs := [Tx.mk "2024-03-01" "BTC" "BUY" (Q2Qc 100) (Q2Qc 1);
              Tx.mk "2024-01-01" "ETH" "BUY" (Q2Qc 10) (Q2Qc 3);
              Tx.mk "2024-02-01" "BTC" "SELL" (Q2Qc 100) (Q2Qc 1)] in
  exists summary,
    computePnL txs [] = Some summary
    /\ Permutation (assets_of txs) (Obj.keys summary).
Proof.
  intros txs. destruct (computePnL_total txs []) as [summary Hc].
  exists summary. split; [exact Hc|].
  exact (proj2 (prices_are_fetched_for_the_summarised_assets _ _ _ Hc)).
Defined.

Lemma In_delete (prev : list Tx.t) (index : nat) (tx : Tx.t) :
  In tx (handleDeleteTransaction prev index) -> In tx prev.
Proof.
  unfold handleDeleteTransaction. rewrite filter_indexed_removes by lia.
  rewrite Nat.sub_0_r. intros H. apply in_app_or in H.
  destruct H as [H|H].
  - rewrite <- (firstn_skipn index prev). apply in_or_app. now left.
  - rewrite <- (firstn_skipn (S index) prev). apply in_or_app. now right.
Qed.

(** X16: adding a transaction keeps every asset in the summary and lists
    the asset of the new transaction; deleting a transaction brings no
    asset into the summary. *)
Theorem summary_assets_grow_with_the_list :
  forall prev prices tx index before added deleted,
    computePnL prev prices = Some before ->
    computePnL (handleAddTransaction prev tx) prices = Some added ->
    computePnL (handleDeleteTransaction prev index) prices = Some deleted ->
    In (Tx.asset tx) (Obj.keys added)
    /\ (forall a, In a (Obj.keys before) -> In a (Obj.keys added))
    /\ (forall a, In a (Obj.keys deleted) -> In a (Obj.keys before)).
Proof.
  intros prev prices tx index before added deleted Hb Ha Hd.
  split; [|split].
  - apply get_In_keys, (computePnL_entry _ _ _ _ Ha).
    exists tx. split; [|reflexivity].
    unfold handleAddTransaction. apply in_or_app. right. now left.
  - intros a Hin. apply get_In_keys, (computePnL_entry _ _ _ _ Ha).
    apply get_In_keys, (computePnL_entry _ _ _ _ Hb) in Hin.
    destruct Hin as [tx' [Hin Hasset]]. exists tx'. split; [|exact Hasset].
    unfold handleAddTransaction. apply in_or_app. now left.
  - intros a Hin. apply get_In_keys, (computePnL_entry _ _ _ _ Hb).
    apply get_In_keys, (computePnL_entry _ _ _ _ Hd) in Hin.
    destruct Hin as [tx' [Hin Hasset]]. exists tx'. split; [|exact Hasset].
    now apply In_delete in Hin.
Qed.

Lemma summary_assets_grow_with_the_list_witness :
  let prev := [Tx.mk "2024-01-01" "BTC" "BUY" (Q2Qc 100) (Q2Qc 1)] in
  let tx := Tx.mk "2024-02-01" "ETH" "BUY" (Q2Qc 10) (Q2Qc 3) in
  exists added,
    computePnL (handleAddTransaction prev tx) [] = Some added
    /\ In "ETH"%string (Obj.keys added).
Proof.
  intros prev tx.
  destruct (computePnL_total prev []) as [before Hb].
  destruct (computePnL_total (handleAddTransaction prev tx) [])
    as [added Ha].
  destruct (computePnL_total (handleDeleteTransaction prev 0) [])
    as [deleted Hd].
  exists added. split; [exact Ha|].
  exact (proj1 (summary_assets_grow_with_the_list
                  prev [] tx 0%nat before added deleted Hb Ha Hd)).
Defined.

(** ** The rows of the summary table *)

Lemma string_sort_sorted (l : list string) :
  StronglySorted (fun x y => String.leb x y = true)
                 (Array_sort string_compare l).
Proof.
  apply (Array_sort_sorted string_compare (fun _ => True)).
  - apply leb_trans.
  - intros x y _ _. unfold string_compare. rewrite leb_compare.
    destruct (String.compare x y); [discriminate | discriminate | lia].
  - intros x y _ _. unfold string_compare. rewrite leb_compare.
    pose proof (String_as_OT.cmp_antisym y x) as Ha.
    unfold String_as_OT.cmp in Ha. rewrite Ha.
    destruct (String.compare x y); simpl; [lia | lia | discriminate].
  - apply Forall_forall. auto.
Qed.

(** X17: the summary table has one row for each asset of the summary, in
    strictly ascending order of the asset symbols. *)
Theorem table_rows_are_the_assets_in_ascending_order :
  forall summary,
    Obj.wf summary ->
    Permutation (assetKeys summary) (Obj.keys summary)
    /\ StronglySorted string_lt (assetKeys summary).
Proof.
  intros summary Hwf.
  assert (Hperm : Permutation (assetKeys summary) (Obj.keys summary))
    by apply Array_sort_Permutation.
  split; [exact Hperm|].
  apply sorted_NoDup_strict; [apply string_sort_sorted|].
  eapply Permutation_NoDup; [symmetry; exact Hperm | exact Hwf].
Qed.

Lemma table_rows_are_the_assets_in_ascending_order_witness :
  let summary :=
    [("ETH"%string,
      Summary.mk (Q2Qc 3) (Q2Qc 30) 0 0 0 (Q2Qc (-30)) (Q2Qc (-30))
                 (Q2Qc 10) (Some (Q2Qc (-100))));
     ("BTC"%string,
      Summary.mk 0 0 (Q2Qc 150) 0 (Q2Qc 50) 0 (Q2Qc 50) 0 None)] in
  Obj.wf summary
  /\ assetKeys summary = ["BTC"; "ETH"]%string
  /\ StronglySorted string_lt (assetKeys summary).
Proof.
  intros summary.
  assert (Hwf : Obj.wf summary).
  { unfold Obj.wf. simpl. repeat constructor; simpl; intuition discriminate. }
  split; [exact Hwf|]. split; [reflexivity|].
  exact (proj2 (table_rows_are_the_assets_in_ascending_order summary Hwf)).
Defined.

(** ** Exit suggestions *)

Lemma Qc_eq_bool_false (x y : number) : Qc_eq_bool x y = false -> x <> y.
Proof.
  unfold Qc_eq_bool. destruct (Qc_eq_dec x y); [discriminate|auto].
Qed.

Lemma suggest_In (summary : Obj.t Summary.t) (prices manualPrices : Obj.t number)
  (acc : list (string * number)) (asset : string) (x : string * number) :
  In x (suggest summary prices manualPrices acc asset)
  <-> In x acc
      \/ (fst x = asset
          /\ exists s c,
              Obj.get asset summary = Some s
              /\ current_price prices manualPrices asset = Some c
              /\ 0 < Summary.quantity s
              /\ snd x = Summary.costAvg s * Q2Qc 2
              /\ snd x <= c).
Proof.
  unfold suggest.
  destruct (Obj.get asset summary) as [s|];
    [|split; [tauto | intros [H|[_ [s [c [H _]]]]]; [exact H|discriminate]]].
  destruct (Qc_eq_bool (Summary.quantity s) 0) eqn:E0.
  { apply Qc_eq_bool_true in E0. split; [tauto|].
    intros [H|[_ [s' [c [[= <-] [_ [Hq _]]]]]]]; [exact H|].
    rewrite E0 in Hq. exfalso. qc_lra. }
  destruct (current_price prices manualPrices asset) as [c|];
    [|split; [tauto|];
      intros [H|[_ [s' [c [_ [H _]]]]]]; [exact H|discriminate]].
  cases_leb (Summary.costAvg s * Q2Qc 2) c;
    cases_ltb 0 (Summary.quantity s); simpl.
  - rewrite in_app_iff. simpl. split.
    + intros [H|[<-|[]]]; [now left|]. right. split; [reflexivity|].
      exists s, c. simpl. auto.
    + intros [H|[Hx [s' [c' [[= <-] [[= <-] [_ [Ht _]]]]]]]]; [now left|].
      right. left. destruct x as [x1 x2]. simpl in *. now subst.
  - split; [tauto|].
    intros [H|[_ [s' [c' [[= <-] [[= <-] [Hq _]]]]]]]; [exact H|].
    exfalso. qc_lra.
  - split; [tauto|].
    intros [H|[_ [s' [c' [[= <-] [[= <-] [_ [Ht Hc]]]]]]]]; [exact H|].
    exfalso. rewrite Ht in Hc. qc_lra.
  - split; [tauto|].
    intros [H|[_ [s' [c' [[= <-] [[= <-] [Hq _]]]]]]]; [exact H|].
    exfalso. qc_lra.
Qed.

(** X18: the page suggests an exit for an asset exactly when the asset is
    RTX or LBRETT, the summary holds a positive quantity of it, and its
    current price (the fetched one, else the manual one) is at least twice
    its [costAvg]; the threshold of the suggestion is that double. *)
Theorem exit_is_suggested_at_twice_the_average_cost :
  forall summary prices manualPrices asset threshold,
    In (asset, threshold) (exit_suggestions summary prices manualPrices)
    <-> (asset = "RTX"%string \/ asset = "LBRETT"%string)
        /\ exists s c,
            Obj.get asset summary = Some s
            /\ current_price prices manualPrices asset = Some c
            /\ 0 < Summary.quantity s
            /\ threshold = Summary.costAvg s * Q2Qc 2
            /\ threshold <= c.
Proof.
  intros summary prices manualPrices asset threshold.
  unfold exit_suggestions. simpl fold_left. rewrite !suggest_In. simpl.
  split.
  - intros [[[]|[<- H]]|[<- H]]; split; auto.
  - intros [[->| ->] H]; [left; right | right]; split; auto.
Qed.

Lemma exit_is_suggested_at_twice_the_average_cost_witness :
  let summary :=
    [("RTX"%string,
      Summary.mk (Q2Qc 100) (Q2Qc 100) (Q2Qc 3) (Q2Qc 300) 0 (Q2Qc 200)
                 (Q2Qc 200) (Q2Qc 1) (Some (Q2Qc 200)))] in
  In ("RTX"%string, Q2Qc 1 * Q2Qc 2)
     (exit_suggestions summary [] [("RTX"%string, Q2Qc 3)]).
Proof.
  intros summary.
  apply (exit_is_suggested_at_twice_the_average_cost
           summary [] [("RTX"%string, Q2Qc 3)]).
  split; [now left|].
  eexists. exists (Q2Qc 3).
  split; [reflexivity|]. split; [reflexivity|].
  split; [vm_compute; reflexivity|].
  split; [reflexivity | vm_compute; discriminate].
Defined.

(** ** The length of the history *)

(** X19: the monthly history has no more rows than there are
    transactions, and it is empty only when there are none. *)
Theorem history_has_at_most_one_row_per_transaction :
  forall txs prices history,
    computeMonthlyHistory txs prices = Some history ->
    (List.length history <= List.length txs)%nat
    /\ (history = [] <-> txs = []).
Proof.
  intros txs prices history H. unfold computeMonthlyHistory in H.
  destruct (history_from_rows txs prices (months_of txs) 0 0)
    as [history' [Hh [Hm _]]].
  rewrite Hh in H. injection H as <-.
  assert (Hlen : List.length history' = List.length (months_of txs))
    by (rewrite <- Hm; now rewrite length_map).
  split.
  - rewrite Hlen, <- (length_map monthKey txs).
    apply NoDup_incl_length; [apply months_of_NoDup|].
    intros m Hin. apply months_of_In in Hin.
    destruct Hin as [tx [Hin <-]]. now apply in_map.
  - split.
    + intros ->. simpl in Hm. destruct txs as [|tx txs]; [reflexivity|].
      assert (Hin : In (monthKey tx) (months_of (tx :: txs)))
        by (apply months_of_In; exists tx; split; [now left|reflexivity]).
      rewrite <- Hm in Hin. destruct Hin.
    + intros ->. destruct history'; [reflexivity|discriminate Hlen].
Qed.

Lemma history_has_at_most_one_row_per_transaction_witness :
  let txs := [Tx.mk "2024-01-20" "BTC" "SELL" (Q2Qc 150) (Q2Qc 1);
              Tx.mk "2024-01-01" "BTC" "BUY" (Q2Qc 100) (Q2Qc 1)] in
  exists history,
    computeMonthlyHistory txs [] = Some history
    /\ (List.length history <= List.length txs)%nat.
Proof.
  intros txs.
  destruct (history_from_rows txs [] (months_of txs) 0 0) as [history [Hh _]].
  exists history. split; [exact Hh|].
  exact (proj1 (history_has_at_most_one_row_per_transaction txs [] history Hh)).
Defined.
